(** * pyfile: the multipart/form-data decoder of [app.py]

    A shallow embedding of [get_header_opt] and [parse_multipart] and of the
    parts of the Python runtime they drive (byte strings, [str] values as
    sequences of code points, UTF-8, [readline] on the request body, the
    temporary files used as byte buffers), followed by the properties of the
    decoder. *)

From Stdlib Require Import String Ascii NArith ZArith Lia.
From Stdlib Require Strings.Byte.
From stdpp Require Import base tactics option list relations.

Local Open Scope N_scope.

(** ** Python values *)

(** [bytes]: a byte string.  [str]: a text string, the sequence of its code
    points. *)
Abbreviation byte := Byte.byte.
Definition bytes := list byte.
Definition str := list N.

#[global] Instance byte_eq_dec : EqDecision byte := Byte.byte_eq_dec.

(** Literals are written as in Python, with the escapes [\r], [\n], [\t],
    [\\] and [\xHH] (the double quote is [\x22]): [b] reads a bytes literal and
    [u] a text literal (all literals of the program are ASCII). *)
Definition hex_digit (c : ascii) : option N :=
  let n := N_of_ascii c in
  if (48 <=? n) && (n <=? 57) then Some (n - 48)
  else if (97 <=? n) && (n <=? 102) then Some (n - 87)
  else if (65 <=? n) && (n <=? 70) then Some (n - 55)
  else None.

Fixpoint unescape (l : list ascii) : list ascii :=
  match l with
  | [] => []
  | "\"%char :: "r"%char :: l' => ascii_of_N 13 :: unescape l'
  | "\"%char :: "n"%char :: l' => ascii_of_N 10 :: unescape l'
  | "\"%char :: "t"%char :: l' => ascii_of_N 9 :: unescape l'
  | "\"%char :: "\"%char :: l' => "\"%char :: unescape l'
  | "\"%char :: "x"%char :: h :: k :: l' =>
    match hex_digit h, hex_digit k with
    | Some h, Some k => ascii_of_N (16 * h + k) :: unescape l'
    | _, _ => "\"%char :: "x"%char :: h :: k :: unescape l'
    end
  | c :: l' => c :: unescape l'
  end.

Definition b (s : string) : bytes :=
  byte_of_ascii <$> unescape (list_ascii_of_string s).
Definition u (s : string) : str :=
  N_of_ascii <$> unescape (list_ascii_of_string s).
Arguments b s%_string.
Arguments u s%_string.

Definition CR : byte := Byte.x0d.
Definition LF : byte := Byte.x0a.
Definition CRLF : bytes := [CR; LF].

(** Exceptions the decoder can meet, and results of fallible calls. *)
Inductive exn :=
| OSError | UnicodeDecodeError | UnicodeEncodeError | AttributeError | ValueError.

Inductive result (A : Type) :=
| Ok (a : A)
| Raise (e : exn).
Arguments Ok {A} a.
Arguments Raise {A} e.

#[global] Instance exn_eq_dec : EqDecision exn.
Proof. solve_decision. Defined.

#[global] Instance result_ret : MRet result := @Ok.
#[global] Instance result_bind : MBind result := fun A B f m =>
  match m with
  | Ok a => f a
  | Raise e => Raise e
  end.

Definition or_raise {A} (e : exn) (o : option A) : result A :=
  match o with
  | Some a => Ok a
  | None => Raise e
  end.

(** ** Helpers on sequences *)

Fixpoint take_while {A} (p : A -> bool) (l : list A) : list A :=
  match l with
  | [] => []
  | x :: l' => if p x then x :: take_while p l' else []
  end.

Fixpoint drop_while {A} (p : A -> bool) (l : list A) : list A :=
  match l with
  | [] => []
  | x :: l' => if p x then drop_while p l' else l
  end.

(** [strip_prefix p l] is [Some r] when [l = p ++ r]. *)
Fixpoint strip_prefix {A} `{EqDecision A} (p l : list A) : option (list A) :=
  match p, l with
  | [], _ => Some l
  | x :: p', y :: l' => if decide (x = y) then strip_prefix p' l' else None
  | _ :: _, [] => None
  end.

(** [bytes.startswith]. *)
Definition startswith (l p : bytes) : bool :=
  match strip_prefix p l with
  | Some _ => true
  | None => false
  end.

(** ** Whitespace *)

(** [str.isspace] on one code point, which is also what [\s] matches in a
    text pattern: the ASCII controls 9-13 and 28-31, the space, and the
    Unicode white space beyond ASCII. *)
Definition isspace (c : N) : bool :=
  ((9 <=? c) && (c <=? 13)) || ((28 <=? c) && (c <=? 32))
  || (c =? 0x85) || (c =? 0xA0) || (c =? 0x1680)
  || ((0x2000 <=? c) && (c <=? 0x200A))
  || (c =? 0x2028) || (c =? 0x2029) || (c =? 0x202F) || (c =? 0x205F)
  || (c =? 0x3000).

(** [str.strip()]. *)
Definition strip (s : str) : str :=
  reverse (drop_while isspace (reverse (drop_while isspace s))).

(** White space of [bytes.rstrip()]: space, [\t], [\n], [\v], [\f], [\r]. *)
Definition isspace_byte (c : byte) : bool :=
  let n := Byte.to_N c in ((9 <=? n) && (n <=? 13)) || (n =? 32).

(** [bytes.rstrip()]. *)
Definition rstrip (l : bytes) : bytes :=
  reverse (drop_while isspace_byte (reverse l)).

(** ** UTF-8 *)

(** The payload of a continuation byte [10xxxxxx]. *)
Definition continuation (c : byte) : option N :=
  let n := Byte.to_N c in
  if (0x80 <=? n) && (n <=? 0xBF) then Some (n - 0x80) else None.

(** [bytes.decode("utf-8")]: [None] stands for [UnicodeDecodeError].
    Overlong forms, surrogates and code points above U+10FFFF are refused. *)
Fixpoint utf8_decode (l : bytes) : option str :=
  match l with
  | [] => Some []
  | b0 :: t0 =>
    let n0 := Byte.to_N b0 in
    if n0 <? 0x80 then (n0 ::.) <$> utf8_decode t0
    else if n0 <? 0xC2 then None
    else if n0 <? 0xE0 then
      match t0 with
      | b1 :: t1 =>
        c1 ← continuation b1;
        (((n0 - 0xC0) * 64 + c1) ::.) <$> utf8_decode t1
      | _ => None
      end
    else if n0 <? 0xF0 then
      match t0 with
      | b1 :: b2 :: t2 =>
        c1 ← continuation b1; c2 ← continuation b2;
        let c := (n0 - 0xE0) * 4096 + c1 * 64 + c2 in
        if (c <? 0x800) || ((0xD800 <=? c) && (c <=? 0xDFFF)) then None
        else (c ::.) <$> utf8_decode t2
      | _ => None
      end
    else if n0 <? 0xF5 then
      match t0 with
      | b1 :: b2 :: b3 :: t3 =>
        c1 ← continuation b1; c2 ← continuation b2; c3 ← continuation b3;
        let c := (n0 - 0xF0) * 262144 + c1 * 4096 + c2 * 64 + c3 in
        if (c <? 0x10000) || (0x10FFFF <? c) then None
        else (c ::.) <$> utf8_decode t3
      | _ => None
      end
    else None
  end.

(** The UTF-8 form of one code point; surrogates have none. *)
Definition utf8_encode_char (c : N) : option bytes :=
  if c <? 0x80 then mapM Byte.of_N [c]
  else if c <? 0x800 then mapM Byte.of_N [0xC0 + c / 64; 0x80 + c mod 64]
  else if c <? 0x10000 then
    if (0xD800 <=? c) && (c <=? 0xDFFF) then None
    else mapM Byte.of_N
           [0xE0 + c / 4096; 0x80 + (c / 64) mod 64; 0x80 + c mod 64]
  else if c <? 0x110000 then
    mapM Byte.of_N
      [0xF0 + c / 262144; 0x80 + (c / 4096) mod 64; 0x80 + (c / 64) mod 64;
       0x80 + c mod 64]
  else None.

(** [str.encode("utf-8")]: [None] stands for [UnicodeEncodeError]. *)
Fixpoint utf8_encode (s : str) : option bytes :=
  match s with
  | [] => Some []
  | c :: s' => l ← utf8_encode_char c; r ← utf8_encode s'; Some (l ++ r)
  end.

(** ** get_header_opt *)

Definition DQUOTE : N := 34.
Definition SEMICOLON : N := 59.
Definition EQUALS : N := 61.

(** The pattern of [get_header_opt] is written below with Q for the double
    quote: [key=([^\sQ;]+)|key=Q([^Q]+)Q].  The class [[^\sQ;]] of the
    unquoted form and the class [[^Q]] of the quoted form: *)
Definition unquoted_char (c : N) : bool :=
  negb (isspace c || (c =? DQUOTE) || (c =? SEMICOLON)).
Definition quoted_char (c : N) : bool := negb (c =? DQUOTE).

(** The groups [(a, b)] of a match: the group of the alternative that did
    not take part is [None]. *)
Definition groups : Type := option str * option str.

(** The first alternative, [key=([^\sQ;]+)], anchored at the start of [s]:
    the group is the longest run of the class, which must not be empty. *)
Definition match_unquoted (key s : str) : option str :=
  rest ← strip_prefix (key ++ [EQUALS]) s;
  match take_while unquoted_char rest with
  | [] => None
  | a => Some a
  end.

(** The second alternative, [key=Q([^Q]+)Q], anchored at the start of [s]:
    the group is the longest run without a quote; a quote has to follow it
    (a shorter run is followed by a character that is not a quote). *)
Definition match_quoted (key s : str) : option str :=
  rest ← strip_prefix (key ++ [EQUALS; DQUOTE]) s;
  match take_while quoted_char rest, drop_while quoted_char rest with
  | c :: q, _ :: _ => Some (c :: q)
  | _, _ => None
  end.


(** The whole pattern at the start of [s]: the alternatives are tried in
    order.  The key is spliced into the pattern as it is: this is the
    pattern of a plain key, as are the keys of this program (boundary,
    name, filename). *)
Definition match_here (key s : str) : option groups :=
  match match_unquoted key s with
  | Some a => Some (Some a, None)
  | None =>
    match match_quoted key s with
    | Some q => Some (None, Some q)
    | None => None
    end
  end.

(** [p.search(header)]: the match at the leftmost position that has one. *)
Fixpoint search (key header : str) : option groups :=
  match match_here key header with
  | Some g => Some g
  | None =>
    match header with
    | [] => None
    | _ :: header' => search key header'
    end
  end.

(** [get_header_opt(key, header)].  [if a:] holds for a group that took
    part and is not empty; [b.strip()] on [None] is an [AttributeError]. *)
Definition get_header_opt (key header : str) : result str :=
  match search key header with
  | None => Ok []
  | Some (a, q) =>
    match a with
    | Some (c :: a) => Ok (c :: a)
    | _ =>
      match q with
      | Some q => Ok (strip q)
      | None => Raise AttributeError
      end
    end
  end.

(** ** The request body *)

(** [req_body.readline()] on the bytes that are left: the bytes up to and
    with the first line feed, or all of them when there is none; at the end
    of the stream the empty bytes, again and again.  The second component
    is what is left after the read. *)
Fixpoint readline (s : bytes) : bytes * bytes :=
  match s with
  | [] => ([], [])
  | c :: s' =>
    if decide (c = LF) then ([c], s')
    else let (l, r) := readline s' in (c :: l, r)
  end.

(** ** Temporary files *)

(** A binary file open for update: its contents and its cursor. *)
Record file := File { data : bytes; pos : nat }.

(** [tempfile.TemporaryFile(mode=w+b)]: a fresh, empty file. *)
Definition TemporaryFile : file := File [] 0.

(** [f.write(l)]: the bytes go in at the cursor, over what is there and
    beyond the end (a gap before the cursor is filled with zeros), and the
    cursor moves past them. *)
Definition write (f : file) (l : bytes) : file :=
  match l with
  | [] => f
  | _ =>
    File (take (pos f) (data f)
            ++ replicate (pos f - length (data f)) Byte.x00
            ++ l ++ drop (pos f + length l) (data f))
         (pos f + length l)
  end.

(** [f.seek(offset, whence)]: from the start (0), the cursor (1) or the end
    (2); a position before the start of the file is refused with
    [OSError], another [whence] with [ValueError]. *)
Definition seek (f : file) (offset : Z) (whence : nat) : result file :=
  match whence with
  | 0 | 1 | 2 =>
    let base := match whence with
                | 0 => 0%nat
                | 1 => pos f
                | _ => length (data f)
                end in
    let p := (Z.of_nat base + offset)%Z in
    if (p <? 0)%Z then Raise OSError else Ok (File (data f) (Z.to_nat p))
  | _ => Raise ValueError
  end%nat.

(** [f.truncate()]: the file ends at the cursor. *)
Definition truncate (f : file) : file :=
  File (take (pos f) (data f) ++ replicate (pos f - length (data f)) Byte.x00)
       (pos f).

(** [f.tell()]. *)
Definition tell (f : file) : nat := pos f.

(** ** parse_multipart *)

(** An entry of [multipart_form_data].  [buf] is a reference to a file
    object: the index of the file in the store of the files that the call
    has opened.  The entry and the local variable [buf] of the decoder
    name the same file. *)
Record part := Part { form_name : str; filename : str; buf : nat }.

(** Where the decoder is: one constructor for each of the four [while]
    loops of [parse_multipart], in the order of the source (the loop that
    looks for the first file, the outer loop up to the Content-Disposition
    line, the loop that reads until the end of the headers, the loop that
    reads the file content), with the local variables that are live in
    the loop. *)
Inductive control :=
| SeekingFirstBoundary
| SeekingDisposition
| SeekingEndOfHeaders (form_name filename : str) (buf : nat)
| AccumulatingBody (form_name filename : str) (buf : nat).

Record state := State {
  ctl : control;
  req_body : bytes;
  files : list file;
  multipart_form_data : list part
}.

(** What a call gives back: the list it returns, with the files its entries
    refer to, or the exception it raises. *)
Definition outcome : Type := result (list part * list file).

Section Decoder.
Variables separator terminator : bytes.

(** The headers of a part, from its Content-Disposition line. *)
Definition disposition (line : bytes) : result (str * str) :=
  header ← or_raise UnicodeDecodeError (utf8_decode (rstrip line));
  form_name ← get_header_opt (u "name") header;
  filename ← get_header_opt (u "filename") header;
  Ok (form_name, filename).

(** The end of a part, reached on a separator or on the terminator: the
    entry is appended; on the terminator the last two bytes of its file
    are cut off and the list is returned, on a separator the decoder
    goes on to the next part. *)
Definition finish (line rest : bytes) (form_name filename : str) (buf : nat)
    (files : list file) (parts : list part) : state + outcome :=
  let parts := parts ++ [Part form_name filename buf] in
  if decide (line = terminator) then
    inr (f ← or_raise ValueError (files !! buf);
         f ← seek f (-2) 2;
         Ok (parts, <[buf := truncate f]> files))
  else inl (State SeekingDisposition rest files parts).

(** One turn of the loop the decoder is in: one [readline] and what
    follows it up to the next [readline] or to the end of the call. *)
Definition step (st : state) : state + outcome :=
  let (line, rest) := readline (req_body st) in
  let files := files st in
  let parts := multipart_form_data st in
  match ctl st with
  | SeekingFirstBoundary =>
    if decide (line = separator)
    then inl (State SeekingDisposition rest files parts)
    else inl (State SeekingFirstBoundary rest files parts)
  | SeekingDisposition =>
    if negb (startswith line (b "Content-Disposition:"))
    then inl (State SeekingDisposition rest files parts)
    else
      match disposition line with
      | Raise e => inr (Raise e)
      | Ok (form_name, filename) =>
        inl (State (SeekingEndOfHeaders form_name filename (length files))
                   rest (files ++ [TemporaryFile]) parts)
      end
  | SeekingEndOfHeaders form_name filename buf =>
    if decide (line = b "\r\n")
    then inl (State (AccumulatingBody form_name filename buf) rest files parts)
    else inl (State (SeekingEndOfHeaders form_name filename buf) rest files parts)
  | AccumulatingBody form_name filename buf =>
    if decide (line = separator \/ line = terminator)
    then finish line rest form_name filename buf files parts
    else inl (State (AccumulatingBody form_name filename buf) rest
                    (alter (fun f => write f line) buf files) parts)
  end.

(** The loops, for at most [fuel] turns: [None] when the call has not
    come to an end by then. *)
Fixpoint run (fuel : nat) (st : state) : option outcome :=
  match fuel with
  | O => None
  | S fuel =>
    match step st with
    | inl st' => run fuel st'
    | inr o => Some o
    end
  end.
End Decoder.

(** The separator and the terminator of a request, from the value of its
    Content-Type header. *)
Definition delimiters (content_type : str) : result (bytes * bytes) :=
  boundary ← get_header_opt (u "boundary") content_type;
  separator ← or_raise UnicodeEncodeError
                (utf8_encode (u "--" ++ boundary ++ u "\r\n"));
  terminator ← or_raise UnicodeEncodeError
                 (utf8_encode (u "--" ++ boundary ++ u "--\r\n"));
  Ok (separator, terminator).

(** [parse_multipart(req_headers, req_body)], for at most [fuel] turns of
    its loops.  [content_type] is the value of the Content-Type header in
    [req_headers], [req_body] the bytes that the stream still has to give.
    The call opens its files in an empty store. *)
Definition parse_multipart (fuel : nat) (content_type : str)
    (req_body : bytes) : option outcome :=
  match delimiters content_type with
  | Raise e => Some (Raise e)
  | Ok (separator, terminator) =>
    run separator terminator fuel (State SeekingFirstBoundary req_body [] [])
  end.

(** The contents of the buffer of an entry of the returned list. *)
Definition content (files : list file) (p : part) : option bytes :=
  data <$> files !! buf p.

(** ** Vocabulary of the statements *)

(** [str.find]: the index of the first occurrence of [needle] in [hay]. *)
Fixpoint find {A} `{EqDecision A} (needle hay : list A) : option nat :=
  match strip_prefix needle hay with
  | Some _ => Some 0%nat
  | None =>
    match hay with
    | [] => None
    | _ :: hay' => S <$> find needle hay'
    end
  end.

(** The lines of a stream, as successive calls of [readline] give them
    up to the end of the stream. *)
Fixpoint readlines (s : bytes) : list bytes :=
  match s with
  | [] => []
  | c :: s' =>
    if decide (c = LF) then [c] :: readlines s'
    else
      match readlines s' with
      | [] => [[c]]
      | l :: ls => (c :: l) :: ls
      end
  end.

(** A line: bytes that end with a line feed and have no other. *)
Definition is_line (l : bytes) : Prop := exists l0, l = l0 ++ [LF] /\ LF ∉ l0.

(** Bytes that end at the end of a line (or are empty). *)
Definition complete (s : bytes) : bool :=
  bool_decide (s = [] \/ last s = Some LF).

(** The two delimiter lines of a boundary. *)
Definition separator_of (boundary : bytes) : bytes :=
  b "--" ++ boundary ++ b "\r\n".
Definition terminator_of (boundary : bytes) : bytes :=
  b "--" ++ boundary ++ b "--\r\n".

(** One part of a multipart/form-data body as it is on the wire: the
    header lines before the Content-Disposition line, that line, the
    header lines after it (each without its CRLF), and the payload. *)
Record wire_part := WirePart {
  leading_lines : list bytes;
  disposition_line : bytes;
  header_lines : list bytes;
  payload : bytes
}.

(** The headers of a part with the blank line that ends them. *)
Definition wire_headers (p : wire_part) : bytes :=
  concat ((fun h => h ++ CRLF) <$> leading_lines p)
    ++ disposition_line p ++ CRLF
    ++ concat ((fun h => h ++ CRLF) <$> header_lines p) ++ CRLF.

(** A part up to its delimiter line: headers, payload, CRLF. *)
Definition wire_of_part (p : wire_part) : bytes :=
  wire_headers p ++ payload p ++ CRLF.

(** A body whose last part has the bytes [raw] between its blank line and
    the terminator line, whatever they are. *)
Definition wire_raw (separator terminator : bytes) (ps : list wire_part)
    (q : wire_part) (raw : bytes) : bytes :=
  separator ++ concat ((fun p => wire_of_part p ++ separator) <$> ps)
    ++ wire_headers q ++ raw ++ terminator.

(** A body: separator, the parts with a separator between them,
    terminator. *)
Definition wire (separator terminator : bytes) (ps : list wire_part)
    (q : wire_part) : bytes :=
  wire_raw separator terminator ps q (payload q ++ CRLF).

(** The headers of a part are in order: one Content-Disposition line, which
    is text, and before and after it lines that are neither blank nor a
    second Content-Disposition. *)
Definition header_ok (h : bytes) : bool :=
  bool_decide (LF ∉ h) && bool_decide (h <> [])
  && negb (startswith (h ++ CRLF) (b "Content-Disposition:")).

Definition headers_ok (p : wire_part) : bool :=
  forallb header_ok (leading_lines p)
  && bool_decide (LF ∉ disposition_line p)
  && startswith (disposition_line p) (b "Content-Disposition:")
  && bool_decide (is_Some (utf8_decode (rstrip (disposition_line p ++ CRLF))))
  && forallb header_ok (header_lines p).

(** No line of [s] is a delimiter line. *)
Definition delimiter_free (separator terminator s : bytes) : bool :=
  bool_decide (separator ∉ readlines s) && bool_decide (terminator ∉ readlines s).

Definition part_ok (separator terminator : bytes) (p : wire_part) : bool :=
  headers_ok p && delimiter_free separator terminator (payload p ++ CRLF).

(** The call comes to an end with [o], given turns enough; the call never
    comes to an end. *)
Definition terminates (separator terminator : bytes) (st : state)
    (o : outcome) : Prop :=
  exists n, forall fuel, (n <= fuel)%nat -> run separator terminator fuel st = Some o.

Definition returns (content_type : str) (req_body : bytes) (o : outcome) : Prop :=
  exists n, forall fuel, (n <= fuel)%nat ->
    parse_multipart fuel content_type req_body = Some o.

Definition hangs (content_type : str) (req_body : bytes) : Prop :=
  forall fuel, parse_multipart fuel content_type req_body = None.

(** One turn that does not end the call. *)
Definition next (separator terminator : bytes) (st st' : state) : Prop :=
  step separator terminator st = inl st'.

(** A file that holds [d], with the cursor at its end. *)
Definition file_of (d : bytes) : file := File d (length d).

(** The entry of the returned list for a part on the wire: its names are
    those of its Content-Disposition line. *)
Definition entry_for (p : wire_part) (e : part) : Prop :=
  disposition (disposition_line p ++ CRLF) = Ok (form_name e, filename e).

(** The cursor of a file is at the end of its contents. *)
Definition cursor_at_end (f : file) : Prop := tell f = length (data f).

(** The files of a state are as the decoder leaves them between two reads:
    every cursor at the end, and every reference to a file in range. *)
Definition files_ok (st : state) : Prop :=
  Forall cursor_at_end (files st)
  /\ Forall (fun e => (buf e < length (files st))%nat) (multipart_form_data st)
  /\ match ctl st with
     | SeekingEndOfHeaders _ _ h | AccumulatingBody _ _ h =>
       (h < length (files st))%nat
     | _ => True
     end.

(** An ASCII byte. *)
Definition ascii_byte (c : byte) : Prop := Byte.to_N c < 128.

(** A match has exactly one of its two groups, and that group is not
    empty. *)
Definition groups_ok (g : groups) : Prop :=
  (exists c a, g = (Some (c :: a), None)) \/ (exists c q, g = (None, Some (c :: q))).

(** ** The rest of the application *)

(** Exceptions of the handlers: those of the decoder and two more. *)
Inductive web_exn :=
| Exn (e : exn)
| OverflowError
| TypeError.

Inductive web_result (A : Type) :=
| Done (a : A)
| Fail (e : web_exn).
Arguments Done {A} a.
Arguments Fail {A} e.

(** *** human_bytes *)

(** The decimal digits of a number, as [str(n)] writes them. *)
Fixpoint decimal_digits (fuel : nat) (n : N) (acc : str) : str :=
  match fuel with
  | O => acc
  | S fuel =>
    let acc := (48 + n mod 10) :: acc in
    if n / 10 =? 0 then acc else decimal_digits fuel (n / 10) acc
  end.

Definition decimal (n : N) : str := decimal_digits (S (N.size_nat n)) n [].

(** The quotient [a / d] rounded to the nearest integer, a tie to the even
    one. *)
Definition round_half_even (a d : N) : N :=
  let q := a / d in
  let r := a mod d in
  if (d <? 2 * r) || ((2 * r =? d) && N.odd q) then q + 1 else q.

(** The format [3.1f] of the number [a / d]: one digit after the point,
    correctly rounded; the text has three characters at least, so that the
    width 3 never pads. *)
Definition format_1f (a d : N) : str :=
  let t := round_half_even (10 * a) d in
  decimal (t / 10) ++ u "." ++ decimal (t mod 10).

(** The turns of the [for] loop over the units.  [num] is the size in
    bytes, a natural number; at turn [k] the variable of the source holds
    the float [num / 1024^k], written here as the fraction [num / d].  The
    fraction is the float exactly as long as [num < 2^53], every division
    by [1024.0] being exact; from [2^40] on no turn of the loop returns,
    and the comparisons, which rounding to a float does not change, all
    fail. *)
Fixpoint human_bytes_units (units : list str) (num d : N) : str :=
  match units with
  | [] => u "?"
  | unit :: units =>
    if num <? 1024 * d then format_1f num d ++ unit
    else human_bytes_units units num (1024 * d)
  end.

(** The first integer that has no float: [num /= 1024.0] raises
    [OverflowError] from there on. *)
Definition FLOAT_OVERFLOW : N := 2 ^ 1024 - 2 ^ 970.

(** [human_bytes(num)] for the size of a file. *)
Definition human_bytes (num : N) : web_result str :=
  if num <? 1024 then Done (format_1f num 1 ++ u "B")
  else if FLOAT_OVERFLOW <=? num then Fail OverflowError
  else Done (human_bytes_units [u "K"; u "M"; u "G"] num 1024).

(** *** rand_b32_str *)

(** The character of a digit of base 32: [A] to [Z], then [2] to [7]. *)
Definition b32_char (d : N) : N := if d <? 26 then 65 + d else 24 + d.

(** The number that the bytes of a group write, the first byte the highest
    ([int.from_bytes(_, big)]). *)
Definition int_from_bytes (l : bytes) : N :=
  foldl (fun c x => 256 * c + Byte.to_N x) 0 l.

(** The eight characters of a group of five bytes. *)
Definition b32_group (c : N) : list N :=
  (fun i => b32_char ((c / 32 ^ i) mod 32)) <$> [7; 6; 5; 4; 3; 2; 1; 0].

(** A last group of fewer than five bytes is filled up with zero bytes,
    and the characters that hold none of its bits are written as [=]:
    six of them after one byte, four after two, three after three, one
    after four. *)
Definition b32_last_group (l : bytes) : list N :=
  let pad := match length l with
             | 1 => 6 | 2 => 4 | 3 => 3 | _ => 1
             end%nat in
  let c := int_from_bytes (l ++ replicate (5 - length l) Byte.x00) in
  take (8 - pad) (b32_group c) ++ replicate pad 61.

(** [base64.b32encode(s)], as the characters of its result. *)
Fixpoint b32encode (s : bytes) : list N :=
  match s with
  | [] => []
  | b0 :: b1 :: b2 :: b3 :: b4 :: s' =>
    b32_group (int_from_bytes [b0; b1; b2; b3; b4]) ++ b32encode s'
  | l => b32_last_group l
  end.

(** [str.lower()] on ASCII text: the capital letters become small. *)
Definition ascii_lower (c : N) : N :=
  if (65 <=? c) && (c <=? 90) then c + 32 else c.

(** [rand_b32_str(n)], given the bytes [token] that
    [secrets.token_bytes(n)] draws. *)
Definition rand_b32_str (token : bytes) : str :=
  ascii_lower <$> b32encode token.

(** The characters of the names: small letters, and the digits from 2 to
    7. *)
Definition b32_small (c : N) : Prop := 97 <= c <= 122 \/ 50 <= c <= 55.

(** *** do_POST *)

Definition FILEDIR : str := u "tmp".

(** What a handler does for a request: the response it sends
    ([send_response], its own [send_header]s, the body), the file it sends
    with [send_filedata], the error page of [send_error], or the exception
    that leaves it. *)
Inductive reply :=
| Response (status : N) (headers : list (str * str)) (body : bytes)
| SendFile (content_type : str) (content_length : N) (path : str)
| SendError (status : N)
| Crashed (e : web_exn).

(** [send_redirect(loc)]. *)
Definition send_redirect (loc : str) : reply :=
  Response 302
    [(u "Location", loc); (u "Content-Type", u "text/html");
     (u "Content-Length", decimal 0)] [].

(** [buf.read()]: the bytes from the cursor to the end, and the cursor
    after them. *)
Definition read (f : file) : bytes * file :=
  (drop (pos f) (data f), File (data f) (pos f `max` length (data f))).

(** What [do_POST] has done so far: the buffers of the parts, the files it
    has written ([open(path, wb)] and the bytes written, in order), the
    buffers it has closed, and the number of random tokens it has
    drawn. *)
Record uploads := Uploads {
  bufs : list file;
  saved : list (str * bytes);
  closed : list nat;
  drawn : nat
}.

(** The lines under [# Save uploaded files] for the part [p] and the name
    [filename].  The directory is taken to accept the file: [open] does
    not raise, and what is recorded is the path it is given and the bytes
    written. *)
Definition save_upload (p : part) (filename : str) (st : uploads)
    : result uploads :=
  f ← or_raise ValueError (bufs st !! buf p);
  f ← seek f 0 0;
  let (bytes_read, f) := read f in
  Ok (Uploads (<[buf p := f]> (bufs st))
              (saved st ++ [(FILEDIR ++ u "/" ++ filename, bytes_read)])
              (closed st ++ [buf p]) (drawn st)).

(** One turn of the loop over the parts.  [rand i] stands for the bytes
    that the [i]-th call of [secrets.token_bytes] gives. *)
Definition save_part (rand : nat -> bytes) (p : part) (st : uploads)
    : result uploads :=
  if decide (form_name p = u "files") then
    if decide (filename p = []) then Ok st
    else save_upload p (filename p) st
  else if decide (form_name p = u "text") then
    f ← or_raise ValueError (bufs st !! buf p);
    if decide (tell f = 0%nat) then Ok st
    else
      save_upload p (u "text_" ++ rand_b32_str (rand (drawn st)) ++ u ".txt")
        (Uploads (bufs st) (saved st) (closed st) (S (drawn st)))
  else Ok st.

(** The loop; an exception ends it where it is. *)
Fixpoint save_parts (rand : nat -> bytes) (parts : list part) (st : uploads)
    : uploads * option exn :=
  match parts with
  | [] => (st, None)
  | p :: parts =>
    match save_part rand p st with
    | Ok st => save_parts rand parts st
    | Raise e => (st, Some e)
    end
  end.

(** [do_POST], for the request path [path], the Content-Type of the
    request and the bytes [rfile] still has; [fuel] bounds the turns of
    the decoder. *)
Definition do_POST (fuel : nat) (rand : nat -> bytes) (path content_type : str)
    (rfile : bytes) : option (reply * uploads) :=
  if decide (path <> u "/upload") then
    Some (SendError 501, Uploads [] [] [] 0)
  else
    match parse_multipart fuel content_type rfile with
    | None => None
    | Some (Raise e) => Some (Crashed (Exn e), Uploads [] [] [] 0)
    | Some (Ok (parts, files)) =>
      match save_parts rand parts (Uploads files [] [] 0) with
      | (st, None) => Some (send_redirect (u "/"), st)
      | (st, Some e) => Some (Crashed (Exn e), st)
      end
    end.

(** The policy of [do_POST] on the names and the contents of the parts:
    which parts are kept, under which path, given the number [i] of
    tokens drawn before. *)
Fixpoint kept_uploads (rand : nat -> bytes) (i : nat)
    (l : list (part * bytes)) : list (nat * (str * bytes)) :=
  match l with
  | [] => []
  | (p, c) :: l =>
    if decide (form_name p = u "files") then
      if decide (filename p = []) then kept_uploads rand i l
      else (buf p, (FILEDIR ++ u "/" ++ filename p, c)) :: kept_uploads rand i l
    else if decide (form_name p = u "text") then
      if decide (c = []) then kept_uploads rand i l
      else (buf p, (FILEDIR ++ u "/" ++ u "text_" ++ rand_b32_str (rand i)
                      ++ u ".txt", c))
             :: kept_uploads rand (S i) l
    else kept_uploads rand i l
  end.

(** *** get_uploaded_file_data *)

(** An entry of the directory of the uploads, as [os.scandir] gives it:
    its name, whether it is a regular file, and its size. *)
Record dir_entry := DirEntry {
  entry_name : str;
  entry_is_file : bool;
  entry_size : N
}.

(** The dictionary of an upload, with its keys path, filename and
    filesize. *)
Record filedata := FileData {
  fd_path : str;
  fd_filename : str;
  fd_filesize : N
}.

(** [str.startswith]. *)
Definition startswith_str (s p : str) : bool :=
  match strip_prefix p s with
  | Some _ => true
  | None => false
  end.

(** [entry.path]: the name joined to the path of the directory
    ([os.path.join]; a name has no slash). *)
Definition entry_path (path name : str) : str :=
  match last path with
  | None => name
  | Some c => if c =? 47 then path ++ name else path ++ u "/" ++ name
  end.

(** [get_uploaded_file_data(path)], where [entries] is what
    [os.scandir(path)] yields, in its order. *)
Fixpoint get_uploaded_file_data (path : str) (entries : list dir_entry)
    : list filedata :=
  match entries with
  | [] => []
  | entry :: entries =>
    if negb (startswith_str (entry_name entry) (u ".")) && entry_is_file entry
    then FileData (entry_path path (entry_name entry)) (entry_name entry)
                  (entry_size entry)
           :: get_uploaded_file_data path entries
    else get_uploaded_file_data path entries
  end.

(** *** render_homepage_html *)

(** The text of the page before the rows of the table. *)
Definition PAGE_HEAD : str :=
  concat
    [u "\n";
     u "<!doctype html>\n";
     u "<html lang=\x22en\x22>\n";
     u "  <head>\n";
     u "    <meta charset=\x22utf-8\x22/>\n";
     u "    <meta name=\x22viewport\x22 content=\x22width=device-width, initial-scale=1\x22 />\n";
     u "    <title>PyFile</title>\n";
     u "    <style>\n";
     u "    * { margin 0; padding: 0; }\n";
     u "    body { margin: 10px auto; max-width: 80ch; font-family: sans-serif; font-size: 100%; }\n";
     u "    main { margin: 0 20px; }\n";
     u "    h1 { font-size: 26px; }\n";
     u "    form { display: flex; flex-direction: column; gap: 10px; }\n";
     u "    fieldset { display: flex; justify-content: space-between; border: none;}\n";
     u "    textarea { padding: 10px; min-height: 80px; resize: vertical; text-wrap: nowrap; font-size: 16px; font-family: monospace; }\n";
     u "    input[name=\x22submit\x22] { margin: 0 auto; padding: 0 10px; }\n";
     u "    table { margin: 20px 0; padding: 10px 0; border-top: 1px solid #888; width: 100%; border-spacing: 0 6px; font-family: monospace; font-size: 16px; }\n";
     u "    table th:nth-child(1), td:nth-child(1) { text-align: left; }\n";
     u "    table th:nth-child(2), td:nth-child(2) { text-align: right; }\n";
     u "    tbody tr:hover { background-color: #f9f9f9; }\n";
     u "    </style>\n";
     u "  </head>\n";
     u "\n";
     u "  <body>\n";
     u "    <main>\n";
     u "      <h1>Upload files or text</h1>\n";
     u "      <form action=\x22/upload\x22 method=\x22post\x22 enctype=\x22multipart/form-data\x22>\n";
     u "        <fieldset>\n";
     u "          <input style=\x22flex-grow: 1;\x22 name=\x22files\x22 type=\x22file\x22 multiple />\n";
     u "          <input name=\x22submit\x22 type=\x22submit\x22 value=\x22Upload\x22 />\n";
     u "        </fieldset>\n";
     u "        <textarea name=\x22text\x22 placeholder=\x22Lorem ipsum";
     [226];
     [8364];
     [166];
     u "\x22></textarea>\n";
     u "      </form>\n";
     u "\n";
     u "      <table>\n";
     u "        <thead><tr><th>File</th><th>Size</th></tr></thead>\n";
     u "        <tbody>"].

(** The text of the page after the rows. *)
Definition PAGE_TAIL : str :=
  concat
    [u "</tbody>\n";
     u "      </table>\n";
     u "    </main>\n";
     u "  </body>\n";
     u "</html>\n"].

(** The row of the table for one upload. *)
Definition page_row (name size : str) : str :=
  u "<tr><td><a href=\x22/upload/" ++ name ++ u "\x22>" ++ name
    ++ u "</a></td><td>" ++ size ++ u "</td></tr>".

(** The loop that builds [uploaded_files_html]. *)
Fixpoint page_rows (file_data : list filedata) : web_result str :=
  match file_data with
  | [] => Done []
  | fd :: file_data =>
    match human_bytes (fd_filesize fd) with
    | Fail e => Fail e
    | Done size =>
      match page_rows file_data with
      | Fail e => Fail e
      | Done rows => Done (page_row (fd_filename fd) size ++ rows)
      end
    end
  end.

(** [render_homepage_html(file_data)], for a list [file_data]. *)
Definition render_homepage_html (file_data : list filedata)
    : web_result bytes :=
  match page_rows file_data with
  | Fail e => Fail e
  | Done rows =>
    match utf8_encode (PAGE_HEAD ++ rows ++ PAGE_TAIL) with
    | Some page => Done page
    | None => Fail (Exn UnicodeEncodeError)
    end
  end.

(** *** do_GET *)

(** [bytes.decode(utf-8, replace)]: as [utf8_decode], but what cannot be
    the start of a character, and every start of a character that is not
    followed by the rest of it, is replaced by U+FFFD; decoding goes on
    at the byte that did not fit. *)
Definition REPLACEMENT : N := 0xFFFD.

Definition in_range (lo hi : N) (c : byte) : option N :=
  let n := Byte.to_N c in
  if (lo <=? n) && (n <=? hi) then Some (n - 0x80) else None.

Fixpoint utf8_decode_replace (l : bytes) : str :=
  match l with
  | [] => []
  | b0 :: t0 =>
    let n0 := Byte.to_N b0 in
    if n0 <? 0x80 then n0 :: utf8_decode_replace t0
    else if n0 <? 0xC2 then REPLACEMENT :: utf8_decode_replace t0
    else if n0 <? 0xE0 then
      match t0 with
      | b1 :: t1 =>
        match continuation b1 with
        | Some c1 => ((n0 - 0xC0) * 64 + c1) :: utf8_decode_replace t1
        | None => REPLACEMENT :: utf8_decode_replace t0
        end
      | [] => REPLACEMENT :: utf8_decode_replace t0
      end
    else if n0 <? 0xF0 then
      let lo := if n0 =? 0xE0 then 0xA0 else 0x80 in
      let hi := if n0 =? 0xED then 0x9F else 0xBF in
      match t0 with
      | b1 :: t1 =>
        match in_range lo hi b1 with
        | Some c1 =>
          match t1 with
          | b2 :: t2 =>
            match continuation b2 with
            | Some c2 =>
              ((n0 - 0xE0) * 4096 + c1 * 64 + c2) :: utf8_decode_replace t2
            | None => REPLACEMENT :: utf8_decode_replace t1
            end
          | [] => REPLACEMENT :: utf8_decode_replace t1
          end
        | None => REPLACEMENT :: utf8_decode_replace t0
        end
      | [] => REPLACEMENT :: utf8_decode_replace t0
      end
    else if n0 <? 0xF5 then
      let lo := if n0 =? 0xF0 then 0x90 else 0x80 in
      let hi := if n0 =? 0xF4 then 0x8F else 0xBF in
      match t0 with
      | b1 :: t1 =>
        match in_range lo hi b1 with
        | Some c1 =>
          match t1 with
          | b2 :: t2 =>
            match continuation b2 with
            | Some c2 =>
              match t2 with
              | b3 :: t3 =>
                match continuation b3 with
                | Some c3 =>
                  ((n0 - 0xF0) * 262144 + c1 * 4096 + c2 * 64 + c3)
                    :: utf8_decode_replace t3
                | None => REPLACEMENT :: utf8_decode_replace t2
                end
              | [] => REPLACEMENT :: utf8_decode_replace t2
              end
            | None => REPLACEMENT :: utf8_decode_replace t1
            end
          | [] => REPLACEMENT :: utf8_decode_replace t1
          end
        | None => REPLACEMENT :: utf8_decode_replace t0
        end
      | [] => REPLACEMENT :: utf8_decode_replace t0
      end
    else REPLACEMENT :: utf8_decode_replace t0
  end.

Definition PERCENT : byte := Byte.x25.

(** [unquote_to_bytes]: a percent sign with two hexadecimal digits after
    it stands for the byte they write; any other percent sign stands for
    itself. *)
Fixpoint unquote_to_bytes (l : bytes) : bytes :=
  match l with
  | [] => []
  | c :: l' =>
    if decide (c = PERCENT) then
      match l' with
      | h :: k :: l'' =>
        match hex_digit (ascii_of_byte h), hex_digit (ascii_of_byte k) with
        | Some x, Some y =>
          byte_of_ascii (ascii_of_N (16 * x + y)) :: unquote_to_bytes l''
        | _, _ => c :: unquote_to_bytes l'
        end
      | _ => c :: unquote_to_bytes l'
      end
    else c :: unquote_to_bytes l'
  end.

(** The loop of [unquote] over the runs of ASCII characters: each run is
    unquoted to bytes and decoded, the characters between the runs stay.
    [run] holds the run that is being read, its last character first. *)
Fixpoint unquote_runs (s : str) (run : bytes) : str :=
  match s with
  | [] => utf8_decode_replace (unquote_to_bytes (reverse run))
  | c :: s' =>
    if c <? 128 then unquote_runs s' (byte_of_ascii (ascii_of_N c) :: run)
    else utf8_decode_replace (unquote_to_bytes (reverse run))
           ++ c :: unquote_runs s' []
  end.

(** [urllib.parse.unquote(string)]. *)
Definition unquote (s : str) : str :=
  if decide (37 ∈ s) then unquote_runs s [] else s.

(** The text before the first [c], all of it when there is none. *)
Definition before (c : N) (s : str) : str := take_while (fun x => negb (x =? c)) s.

(** [_splitparams(url)[0]]: the url without the parameters of its last
    segment. *)
Definition splitparams (url : str) : str :=
  let segment := reverse (before 47 (reverse url)) in
  let dir := take (length url - length segment) url in
  dir ++ before 59 segment.

(** [urllib.parse.urlparse(url).path] for a url that begins with a slash
    and a character that is not a slash: no scheme, no host.  Tabs and
    ends of line are dropped, then the fragment, the query and the
    parameters are cut off. *)
Definition urlparse_path (url : str) : str :=
  let url := List.filter (fun c => negb ((c =? 9) || (c =? 13) || (c =? 10))) url in
  splitparams (before 63 (before 35 url)).

(** [str.split(sep)] for a separator that is not empty. *)
Fixpoint split_fuel (fuel : nat) (sep s : str) : list str :=
  match fuel with
  | O => [s]
  | S fuel =>
    match find sep s with
    | None => [s]
    | Some i => take i s :: split_fuel fuel sep (drop (i + length sep) s)
    end
  end.

Definition split (sep s : str) : list str := split_fuel (length s) sep s.

(** [send_bytes(body, mime)]. *)
Definition send_bytes (body : bytes) (mime : str) : reply :=
  Response 200
    [(u "Content-Type", mime);
     (u "Content-Length", decimal (N.of_nat (length body)))] body.

(** [send_homepage()]. *)
Definition send_homepage (entries : list dir_entry) : reply :=
  match render_homepage_html (get_uploaded_file_data FILEDIR entries) with
  | Fail e => Crashed e
  | Done page => send_bytes page (u "text/html")
  end.

(** [send_filedata(filedata)], where [guess_type] gives the type that
    [mimetypes.guess_type] finds for a name. *)
Definition send_filedata (guess_type : str -> option str) (fd : filedata)
    : reply :=
  let ctype := match guess_type (fd_filename fd) with
               | Some (c :: t) => c :: t
               | _ => u "application/octet-stream"
               end in
  SendFile ctype (fd_filesize fd) (fd_path fd).

(** The loop of [do_GET] that looks for the upload. *)
Fixpoint find_upload (basename : str) (file_data : list filedata)
    : option filedata :=
  match file_data with
  | [] => None
  | ufd :: file_data =>
    if decide (basename = fd_filename ufd) then Some ufd
    else find_upload basename file_data
  end.

(** [do_GET], for the request path [path] and the entries of the
    directory of the uploads. *)
Definition do_GET (guess_type : str -> option str) (path : str)
    (entries : list dir_entry) : reply :=
  if decide (path = u "/") then send_homepage entries
  else if negb (startswith_str path (u "/upload/")) then SendError 404
  else
    match split (u "/upload/") (unquote (urlparse_path path)) with
    | [_; basename] =>
      match find_upload basename (get_uploaded_file_data FILEDIR entries) with
      | None => SendError 404
      | Some upload => send_filedata guess_type upload
      end
    | _ => Crashed (Exn ValueError)
    end.

(** ** More vocabulary *)

(** The Content-Disposition line of a part on the wire gives it the field
    name [name] and the file name [fname]. *)
Definition named (p : wire_part) (name fname : str) : Prop :=
  disposition (disposition_line p ++ CRLF) = Ok (name, fname).

(** The handler never comes to an answer of the request, whatever the
    number of turns of the decoder. *)
Definition never_answered (rand : nat -> bytes) (path content_type : str)
    (rfile : bytes) : Prop :=
  forall fuel, do_POST fuel rand path content_type rfile = None.

(** A character that a request path keeps as it is: not one of [# ? ; %],
    a tab or an end of line. *)
Definition url_plain (c : N) : bool :=
  negb (bool_decide (c ∈ [35; 63; 59; 37; 9; 10; 13])).

(** An entry that [get_uploaded_file_data] lists: a regular file whose
    name does not begin with a dot. *)
Definition listed (entry : dir_entry) : bool :=
  negb (startswith_str (entry_name entry) (u ".")) && entry_is_file entry.

(** A name as a client quotes it in a path: every byte of its UTF-8 form
    written as a percent sign and two hexadecimal digits. *)
Definition hex_upper (d : N) : N := if d <? 10 then 48 + d else 55 + d.

Definition percent_encode (l : bytes) : str :=
  l ≫= fun c => [37; hex_upper (Byte.to_N c / 16); hex_upper (Byte.to_N c mod 16)].

(** ** Examples *)

Example get_header_opt_quoted :
  get_header_opt (u "filename") (u "filename=\x22my file.txt\x22") = Ok (u "my file.txt").
Proof. reflexivity. Qed.

Example get_header_opt_unquoted :
  get_header_opt (u "boundary") (u "boundary=abc123") = Ok (u "abc123").
Proof. reflexivity. Qed.

Example utf8_decode_text :
  utf8_decode (b "caf\xc3\xa9 \xe2\x82\xac \xf0\x9f\x98\x80")
  = Some [99; 97; 102; 233; 32; 8364; 32; 128512].
Proof. reflexivity. Qed.

Example utf8_decode_overlong : utf8_decode (b "\xc0\x80") = None.
Proof. reflexivity. Qed.

Example utf8_decode_surrogate : utf8_decode (b "\xed\xa0\x80") = None.
Proof. reflexivity. Qed.

Example utf8_encode_text :
  utf8_encode [99; 97; 102; 233; 32; 8364; 32; 128512]
  = Some (b "caf\xc3\xa9 \xe2\x82\xac \xf0\x9f\x98\x80").
Proof. reflexivity. Qed.

Example rstrip_line : rstrip (b "name=\x22a\x22 \t\r\n") = b "name=\x22a\x22".
Proof. reflexivity. Qed.

Example readline_twice :
  readline (b "ab\r\ncd") = (b "ab\r\n", b "cd")
  /\ readline (b "cd") = (b "cd", []) /\ readline [] = ([], []).
Proof. by split_and!. Qed.

Example seek_short_file : seek (file_of (b "\n")) (-2) 2 = Raise OSError.
Proof. reflexivity. Qed.

Example parse_multipart_latin1_filename :
  parse_multipart 10 (u "multipart/form-data; boundary=XYZ")
    (b "--XYZ\r\nContent-Disposition: form-data; name=\x22files\x22; filename=\x22\xe9.txt\x22\r\n\r\nhello\r\n--XYZ--\r\n")
  = Some (Raise UnicodeDecodeError).
Proof. vm_compute. reflexivity. Qed.

Example parse_multipart_hello :
  parse_multipart 10 (u "multipart/form-data; boundary=XYZ")
    (b "--XYZ\r\nContent-Disposition: form-data; name=\x22text\x22\r\n\r\nhello\r\n--XYZ--\r\n")
  = Some (Ok ([Part (u "text") [] 0], [File (b "hello") 5])).
Proof. vm_compute. reflexivity. Qed.

(** ** Sequences *)

Section Sequences.
Context {A : Type} `{EqDecision A}.
Implicit Types (p l r : list A) (f : A -> bool).

Lemma strip_prefix_app_same p r : strip_prefix p (p ++ r) = Some r.
Proof. induction p as [|x p IH]; simpl; [done|]. by rewrite decide_True. Qed.

Lemma strip_prefix_Some p l r : strip_prefix p l = Some r -> l = p ++ r.
Proof.
  revert l; induction p as [|x p IH]; intros [|y l] Hs; simplify_eq/=; try done.
  case_decide; [|done]. subst. f_equal. by apply IH.
Qed.

Lemma strip_prefix_app p q l :
  strip_prefix (p ++ q) l = strip_prefix p l ≫= strip_prefix q.
Proof.
  revert l; induction p as [|x p IH]; intros l; simpl; [done|].
  destruct l as [|y l]; [done|]. case_decide; [apply IH|done].
Qed.


Lemma take_while_app_all f l r :
  forallb f l = true -> take_while f (l ++ r) = l ++ take_while f r.
Proof.
  induction l as [|x l IH]; simpl; [done|].
  intros [Hx Hl]%andb_prop. rewrite Hx. f_equal. by apply IH.
Qed.


End Sequences.

(** ** The header-field extractor *)

Section Extractor.
Implicit Types key header pre post v : str.

Lemma match_here_groups key s g : match_here key s = Some g -> groups_ok g.
Proof.
  unfold match_here, match_unquoted, match_quoted. intros Hm.
  destruct (strip_prefix (key ++ [EQUALS]) s) as [rest|]; simpl in Hm.
  - destruct (take_while unquoted_char rest) as [|c a] eqn:Ha.
    + destruct (strip_prefix (key ++ [EQUALS; DQUOTE]) s) as [rest'|];
        simpl in Hm; [|done].
      destruct (take_while quoted_char rest') as [|c q]; [done|].
      destruct (drop_while quoted_char rest'); [done|].
      simplify_eq. right. eauto.
    + simplify_eq. left. eauto.
  - destruct (strip_prefix (key ++ [EQUALS; DQUOTE]) s) as [rest'|];
      simpl in Hm; [|done].
    destruct (take_while quoted_char rest') as [|c q]; [done|].
    destruct (drop_while quoted_char rest'); [done|].
    simplify_eq. right. eauto.
Qed.

Lemma search_groups key header g : search key header = Some g -> groups_ok g.
Proof.
  induction header as [|c header IH]; simpl;
    destruct (match_here key _) eqn:Hm; intros; simplify_eq;
    eauto using match_here_groups.
Qed.

(** The extractor never raises. *)
Lemma get_header_opt_total key header : exists v, get_header_opt key header = Ok v.
Proof.
  unfold get_header_opt. destruct (search key header) as [g|] eqn:Hs; [|eauto].
  apply search_groups in Hs as [(c & a & ->)|(c & q & ->)]; eauto.
Qed.

Lemma match_here_no_key key s :
  strip_prefix (key ++ [EQUALS]) s = None -> match_here key s = None.
Proof.
  intros Hs. unfold match_here, match_unquoted, match_quoted.
  replace (key ++ [EQUALS; DQUOTE]) with ((key ++ [EQUALS]) ++ [DQUOTE])
    by by rewrite <-app_assoc.
  by rewrite (strip_prefix_app (key ++ [EQUALS]) [DQUOTE]), Hs.
Qed.

(** Where [key=] does not occur, nothing matches. *)
Lemma search_absent key header :
  find (key ++ [EQUALS]) header = None -> search key header = None.
Proof.
  induction header as [|c header IH]; simpl.
  - destruct (strip_prefix _ _) eqn:Hs; [done|]. by rewrite match_here_no_key.
  - destruct (strip_prefix _ _) eqn:Hs; [done|]. rewrite match_here_no_key by done.
    destruct (find _ header); [done|]. auto.
Qed.




End Extractor.

(** ** Lines *)

Section Lines.
Implicit Types (l s rest : bytes).

Lemma readline_line l0 rest :
  LF ∉ l0 -> readline (l0 ++ LF :: rest) = (l0 ++ [LF], rest).
Proof.
  induction l0 as [|c l0 IH]; simpl.
  - done.
  - intros [Hc Hl]%not_elem_of_cons. rewrite decide_False by done.
    by rewrite IH.
Qed.

Lemma readline_is_line l rest : is_line l -> readline (l ++ rest) = (l, rest).
Proof. intros (l0 & -> & Hl). rewrite <-app_assoc. by apply readline_line. Qed.

Lemma is_line_crlf l : LF ∉ l -> is_line (l ++ CRLF).
Proof.
  intros Hl. exists (l ++ [CR]). split; [by rewrite <-app_assoc|].
  rewrite not_elem_of_app, not_elem_of_cons. split_and!; [done|done|].
  apply not_elem_of_nil.
Qed.

Lemma is_line_nonempty l : is_line l -> l <> [].
Proof. intros (l0 & -> & _). by destruct l0. Qed.

(** A read gives the first of the lines and leaves the others. *)
Lemma readlines_readline s :
  s <> [] -> readlines s = (readline s).1 :: readlines (readline s).2.
Proof.
  induction s as [|c s IH]; [done|]. intros _. simpl.
  case_decide; [done|]. destruct s as [|c' s]; [done|].
  rewrite IH by done. by destruct (readline (c' :: s)).
Qed.

Lemma readlines_is_line l rest :
  is_line l -> readlines (l ++ rest) = l :: readlines rest.
Proof.
  intros Hl.
  assert (l ++ rest <> []) as Hne
    by (intros [? _]%app_eq_nil; by eapply is_line_nonempty).
  rewrite readlines_readline by done. by rewrite readline_is_line.
Qed.

Lemma complete_cases s :
  complete s = true ->
  s = [] \/ exists l rest, s = l ++ rest /\ is_line l /\ complete rest = true
                           /\ (length rest < length s)%nat.
Proof.
  unfold complete. intros [->|Hlast]%bool_decide_eq_true; [by left|]. right.
  apply last_Some in Hlast as [s' ->].
  induction s' as [|c s' IH]; simpl.
  - exists [LF], []. split_and!; try done; [by exists []; split; [|apply not_elem_of_nil]|simpl; lia].
  - destruct (decide (c = LF)) as [->|Hc].
    + exists [LF], (s' ++ [LF]). split_and!; try done.
      * exists []. split; [done|apply not_elem_of_nil].
      * apply bool_decide_eq_true. right. apply last_snoc.
      * simpl. lia.
    + destruct IH as (l & rest & Heq & (l0 & -> & Hl0) & Hrest & Hlen).
      exists (c :: l0 ++ [LF]), rest. split_and!; try done.
      * simpl. by rewrite Heq.
      * exists (c :: l0). split; [done|]. by apply not_elem_of_cons.
      * simpl. rewrite Heq, !length_app in *. simpl in *. lia.
Qed.
End Lines.

(** ** Files *)

Lemma write_at_end d l : write (file_of d) l = file_of (d ++ l).
Proof.
  unfold write, file_of. simpl. destruct l as [|c l]; [by rewrite app_nil_r|].
  rewrite take_ge, drop_ge, Nat.sub_diag by (simpl; lia). simpl.
  by rewrite app_nil_r, length_app.
Qed.

Lemma alter_lookup {A} (g : A -> A) (l : list A) i x :
  l !! i = Some x -> alter g i l = <[i := g x]> l.
Proof.
  revert i; induction l as [|y l IH]; intros [|i] Hi; simplify_eq/=; [done|].
  f_equal. by apply IH.
Qed.

Lemma seal_file raw :
  (f ← seek (file_of raw) (-2) 2; Ok (truncate f))
  = if decide (2 <= length raw)%nat
    then Ok (file_of (take (length raw - 2) raw))
    else Raise OSError.
Proof.
  unfold seek, file_of. simpl. case_decide as Hlen.
  - destruct (Z.ltb_spec (Z.of_nat (length raw) + -2) 0); [lia|]. simpl.
    unfold truncate. simpl.
    replace (Z.to_nat (Z.of_nat (length raw) + -2)) with (length raw - 2)%nat by lia.
    rewrite length_take.
    replace (length raw - 2 - length raw)%nat with 0%nat by lia.
    simpl. rewrite app_nil_r. do 2 f_equal. lia.
  - destruct (Z.ltb_spec (Z.of_nat (length raw) + -2) 0); [done|lia].
Qed.

(** ** The loops of the decoder *)

Ltac unfold_step :=
  unfold next, step; cbn [req_body ctl files multipart_form_data].

Section Loops.
Variables separator terminator : bytes.
Implicit Types (st : state) (o : outcome) (rest : bytes) (files : list file)
  (parts : list part).

Local Abbreviation Step := (step separator terminator).
Local Abbreviation Next := (next separator terminator).
Local Abbreviation Terminates := (terminates separator terminator).

Lemma terminates_done st o : Step st = inr o -> Terminates st o.
Proof.
  intros Hs. exists 1%nat. intros [|fuel] ?; [lia|]. simpl. by rewrite Hs.
Qed.

Lemma terminates_next st st' o : Next st st' -> Terminates st' o -> Terminates st o.
Proof.
  intros Hs [n Hn]. exists (S n). intros [|fuel] ?; [lia|]. simpl.
  rewrite Hs. apply Hn. lia.
Qed.

Lemma terminates_rtc st st' o :
  rtc Next st st' -> Terminates st' o -> Terminates st o.
Proof. induction 1; eauto using terminates_next. Qed.

(** A property of the states that every turn keeps holds of the outcome. *)
Lemma run_invariant (P : state -> Prop) (Q : outcome -> Prop) :
  (forall st st', P st -> Step st = inl st' -> P st') ->
  (forall st o, P st -> Step st = inr o -> Q o) ->
  forall fuel st o, P st -> run separator terminator fuel st = Some o -> Q o.
Proof.
  intros Hstep Hend. induction fuel as [|fuel IH]; intros st o HP; [done|].
  simpl. destruct (Step st) as [st'|o'] eqn:Hs; [eauto|].
  intros; simplify_eq. eauto.
Qed.

Lemma startswith_app (l p r : bytes) :
  startswith l p = true -> startswith (l ++ r) p = true.
Proof.
  unfold startswith. destruct (strip_prefix p l) as [t|] eqn:Hs; [|done].
  apply strip_prefix_Some in Hs as ->. by rewrite <-app_assoc, strip_prefix_app_same.
Qed.


Lemma disposition_ok line :
  is_Some (utf8_decode (rstrip line)) ->
  exists form_name filename, disposition line = Ok (form_name, filename).
Proof.
  intros [header Hh]. unfold disposition. rewrite Hh. simpl.
  destruct (get_header_opt_total (u "name") header) as [v1 ->].
  destruct (get_header_opt_total (u "filename") header) as [v2 ->].
  simpl. eauto.
Qed.

Hypothesis separator_line : is_line separator.
Hypothesis terminator_line : is_line terminator.
Hypothesis separator_terminator : separator <> terminator.

Lemma first_boundary rest files parts :
  Next (State SeekingFirstBoundary (separator ++ rest) files parts)
       (State SeekingDisposition rest files parts).
Proof.
  unfold_step. rewrite readline_is_line by done. by rewrite decide_True.
Qed.

Lemma read_disposition cd form_name filename rest files parts :
  LF ∉ cd -> startswith cd (b "Content-Disposition:") = true ->
  disposition (cd ++ CRLF) = Ok (form_name, filename) ->
  Next (State SeekingDisposition ((cd ++ CRLF) ++ rest) files parts)
       (State (SeekingEndOfHeaders form_name filename (length files)) rest
              (files ++ [TemporaryFile]) parts).
Proof.
  intros Hcd Hstart Hdisp. unfold_step.
  rewrite readline_is_line by by apply is_line_crlf.
  by rewrite startswith_app, Hdisp by done.
Qed.

Lemma skip_leading hs rest files parts :
  forallb header_ok hs = true ->
  rtc Next
    (State SeekingDisposition (concat ((fun l => l ++ CRLF) <$> hs) ++ rest)
           files parts)
    (State SeekingDisposition rest files parts).
Proof.
  induction hs as [|l hs IH]; csimpl; [done|].
  intros [Hl Hhs]%andb_prop. eapply rtc_l; [|by apply IH].
  unfold header_ok in Hl.
  apply andb_prop in Hl as [[Hlf%bool_decide_eq_true _]%andb_prop Hcd].
  unfold_step.
  rewrite <-app_assoc, readline_is_line by by apply is_line_crlf.
  by rewrite Hcd.
Qed.

Lemma skip_headers hs form_name filename h rest files parts :
  forallb header_ok hs = true ->
  rtc Next
    (State (SeekingEndOfHeaders form_name filename h)
           (concat ((fun l => l ++ CRLF) <$> hs) ++ CRLF ++ rest) files parts)
    (State (AccumulatingBody form_name filename h) rest files parts).
Proof.
  induction hs as [|l hs IH]; simpl.
  - intros _. apply rtc_once. unfold_step.
    change (CR :: LF :: rest) with (CRLF ++ rest).
    rewrite readline_is_line by (apply (is_line_crlf []), not_elem_of_nil).
    by rewrite decide_True.
  - intros [Hl Hhs]%andb_prop. eapply rtc_l; [|by apply IH].
    unfold header_ok in Hl.
    apply andb_prop in Hl as [[Hlf%bool_decide_eq_true Hnil%bool_decide_eq_true]%andb_prop _].
    unfold_step.
    rewrite <-app_assoc, readline_is_line by by apply is_line_crlf.
    rewrite decide_False; [done|].
    intros Heq. apply Hnil. by destruct l as [|? [|? [|? ?]]].
Qed.

Lemma read_headers p rest files parts :
  headers_ok p = true ->
  exists e, entry_for p e /\ buf e = length files /\
    rtc Next
      (State SeekingDisposition (wire_headers p ++ rest) files parts)
      (State (AccumulatingBody (form_name e) (filename e) (buf e)) rest
             (files ++ [TemporaryFile]) parts).
Proof.
  unfold headers_ok. intros Hok.
  apply andb_prop in Hok as [[[[Hlead Hlf%bool_decide_eq_true]%andb_prop
    Hstart]%andb_prop Hdec%bool_decide_eq_true]%andb_prop Hhs].
  destruct (disposition_ok _ Hdec) as (fn & fname & Hdisp).
  exists (Part fn fname (length files)). split_and!; [done|done|]. simpl.
  unfold wire_headers. rewrite <-!app_assoc.
  eapply rtc_trans; [by apply skip_leading|].
  eapply rtc_l.
  - rewrite (app_assoc _ CRLF). by apply read_disposition.
  - by apply skip_headers.
Qed.

Lemma accumulate s form_name filename h d rest files parts :
  complete s = true -> delimiter_free separator terminator s = true ->
  files !! h = Some (file_of d) ->
  rtc Next
    (State (AccumulatingBody form_name filename h) (s ++ rest) files parts)
    (State (AccumulatingBody form_name filename h) rest
           (<[h := file_of (d ++ s)]> files) parts).
Proof.
  remember (length s) as n eqn:Hn. revert s d files Hn.
  induction (lt_wf n) as [n _ IH]. intros s d files -> Hc Hfree Hh.
  destruct (complete_cases _ Hc) as [->|(l & s' & -> & Hl & Hc' & Hlen)].
  { rewrite app_nil_r, list_insert_id by done. done. }
  unfold delimiter_free in Hfree. rewrite readlines_is_line in Hfree by done.
  apply andb_prop in Hfree as [[Hs1 Hs2]%bool_decide_eq_true%not_elem_of_cons
                               [Ht1 Ht2]%bool_decide_eq_true%not_elem_of_cons].
  eapply rtc_l.
  - unfold_step.
    rewrite <-app_assoc, readline_is_line by done.
    rewrite decide_False by (intros [?|?]; congruence).
    rewrite (alter_lookup _ _ _ _ Hh), write_at_end. done.
  - rewrite (app_assoc d l s').
    replace (<[h:=file_of ((d ++ l) ++ s')]> files)
      with (<[h:=file_of ((d ++ l) ++ s')]> (<[h:=file_of (d ++ l)]> files))
      by apply list_insert_insert_eq.
    eapply (IH (length s')); [done|done|done| |].
    + unfold delimiter_free. by rewrite !bool_decide_eq_true_2.
    + apply list_lookup_insert_eq. by eapply lookup_lt_Some.
Qed.

Lemma finish_separator form_name filename h rest files parts :
  Next (State (AccumulatingBody form_name filename h) (separator ++ rest) files parts)
       (State SeekingDisposition rest files (parts ++ [Part form_name filename h])).
Proof.
  unfold_step. rewrite readline_is_line by done.
  rewrite decide_True by by left. unfold finish. by rewrite decide_False.
Qed.

Lemma finish_terminator form_name filename h rest files parts :
  Step (State (AccumulatingBody form_name filename h) (terminator ++ rest) files parts)
  = inr (f ← or_raise ValueError (files !! h);
         f ← seek f (-2) 2;
         Ok (parts ++ [Part form_name filename h], <[h := truncate f]> files)).
Proof.
  unfold_step. rewrite readline_is_line by done.
  rewrite decide_True by by right. unfold finish. by rewrite decide_True.
Qed.

Lemma lookup_fresh files (f : file) : (files ++ [f]) !! length files = Some f.
Proof. by rewrite lookup_app_r, Nat.sub_diag by lia. Qed.

Lemma insert_fresh files (f g : file) :
  <[length files := g]> (files ++ [f]) = files ++ [g].
Proof.
  replace (length files) with (length files + 0)%nat at 1 by lia.
  by rewrite insert_app_r.
Qed.

(** A part that a separator ends: its file keeps all the bytes up to the
    separator line. *)
Lemma sealed_part p rest files parts :
  part_ok separator terminator p = true ->
  exists e, entry_for p e /\ buf e = length files /\
    rtc Next
      (State SeekingDisposition (wire_of_part p ++ separator ++ rest) files parts)
      (State SeekingDisposition rest
             (files ++ [file_of (payload p ++ CRLF)]) (parts ++ [e])).
Proof.
  intros [Hh Hfree]%andb_prop.
  destruct (read_headers p ((payload p ++ CRLF) ++ separator ++ rest) files parts Hh)
    as (e & He & Hbuf & Hsteps).
  exists e. split_and!; [done|done|].
  unfold wire_of_part. rewrite <-(app_assoc (wire_headers p)).
  eapply rtc_trans; [exact Hsteps|].
  eapply rtc_trans.
  - apply (accumulate _ _ _ _ []); [|done|].
    + apply bool_decide_eq_true. right.
      replace (payload p ++ CRLF) with ((payload p ++ [CR]) ++ [LF])
        by by rewrite <-app_assoc.
      apply last_snoc.
    + rewrite Hbuf. apply lookup_fresh.
  - apply rtc_once. rewrite Hbuf, insert_fresh. simpl.
    replace e with (Part (form_name e) (filename e) (length files)) at 3
      by (destruct e; simpl in *; by subst).
    apply finish_separator.
Qed.

Lemma sealed_parts ps rest files parts :
  forallb (part_ok separator terminator) ps = true ->
  exists es, Forall2 entry_for ps es /\
    buf <$> es = seq (length files) (length ps) /\
    rtc Next
      (State SeekingDisposition
             (concat ((fun p => wire_of_part p ++ separator) <$> ps) ++ rest)
             files parts)
      (State SeekingDisposition rest
             (files ++ ((fun p => file_of (payload p ++ CRLF)) <$> ps))
             (parts ++ es)).
Proof.
  revert files parts. induction ps as [|p ps IH]; intros files parts; csimpl.
  - intros _. exists []. by rewrite !app_nil_r.
  - intros [Hp Hps]%andb_prop.
    destruct (sealed_part p (concat ((fun p => wire_of_part p ++ separator) <$> ps)
                               ++ rest) files parts Hp)
      as (e & He & Hbuf & Hsteps).
    destruct (IH (files ++ [file_of (payload p ++ CRLF)]) (parts ++ [e]) Hps)
      as (es & Hes & Hbufs & Hsteps').
    exists (e :: es). split_and!.
    + by constructor.
    + csimpl. rewrite Hbuf, Hbufs, length_app. simpl. f_equal. f_equal. lia.
    + rewrite <-!app_assoc in *. csimpl in *.
      eapply rtc_trans; [exact Hsteps|exact Hsteps'].
Qed.

(** The part that the terminator ends: the last two bytes of its file
    are cut off, and there have to be two. *)
Lemma last_part q raw rest files parts :
  headers_ok q = true -> complete raw = true ->
  delimiter_free separator terminator raw = true ->
  exists e, entry_for q e /\ buf e = length files /\
    Terminates
      (State SeekingDisposition (wire_headers q ++ raw ++ terminator ++ rest)
             files parts)
      (if decide (2 <= length raw)%nat
       then Ok (parts ++ [e], files ++ [file_of (take (length raw - 2) raw)])
       else Raise OSError).
Proof.
  intros Hh Hc Hfree.
  destruct (read_headers q (raw ++ terminator ++ rest) files parts Hh)
    as (e & He & Hbuf & Hsteps).
  exists e. split_and!; [done|done|].
  eapply terminates_rtc; [exact Hsteps|].
  eapply terminates_rtc.
  { apply (accumulate _ _ _ _ []); [done|done|]. rewrite Hbuf. apply lookup_fresh. }
  apply terminates_done. rewrite finish_terminator.
  rewrite Hbuf, insert_fresh, lookup_fresh. cbn [or_raise mbind result_bind].
  change ([] ++ raw) with raw.
  pose proof (seal_file raw) as Hseal.
  destruct (seek (file_of raw) (-2) 2) as [f|err];
    cbn [mbind result_bind] in *.
  - case_decide; [|done].
    assert (truncate f = file_of (take (length raw - 2) raw)) as ->
      by congruence.
    rewrite insert_fresh. destruct e; simpl in *; by subst.
  - case_decide; [done|]. by simplify_eq.
Qed.

Lemma decode_wire ps q raw :
  forallb (part_ok separator terminator) ps = true ->
  headers_ok q = true -> complete raw = true ->
  delimiter_free separator terminator raw = true ->
  exists es, Forall2 entry_for (ps ++ [q]) es /\
    buf <$> es = seq 0 (length (ps ++ [q])) /\
    Terminates
      (State SeekingFirstBoundary (wire_raw separator terminator ps q raw) [] [])
      (if decide (2 <= length raw)%nat
       then Ok (es, ((fun p => file_of (payload p ++ CRLF)) <$> ps)
                      ++ [file_of (take (length raw - 2) raw)])
       else Raise OSError).
Proof.
  intros Hps Hq Hc Hfree.
  destruct (sealed_parts ps (wire_headers q ++ raw ++ terminator ++ []) [] [] Hps)
    as (es & Hes & Hbufs & Hsteps).
  destruct (last_part q raw [] ((fun p => file_of (payload p ++ CRLF)) <$> ps)
              es Hq Hc Hfree) as (e & He & Hbuf & Hterm).
  rewrite !app_nil_l, app_nil_r in Hsteps. rewrite app_nil_r in Hterm.
  simpl in Hbufs.
  exists (es ++ [e]). split_and!.
  - apply Forall2_app; [done|]. by repeat constructor.
  - rewrite fmap_app, Hbufs, length_app. csimpl. rewrite Hbuf.
    by rewrite length_fmap, Nat.add_1_r, seq_S.
  - eapply terminates_next.
    { unfold wire_raw. apply first_boundary. }
    eapply terminates_rtc; [exact Hsteps|exact Hterm].
Qed.
End Loops.

(** ** The delimiter lines *)

Ltac by_decide := apply (bool_decide_unpack _); vm_compute; exact I.

Lemma utf8_encode_app s1 s2 :
  utf8_encode (s1 ++ s2)
  = l1 ← utf8_encode s1; l2 ← utf8_encode s2; Some (l1 ++ l2).
Proof.
  induction s1 as [|c s1 IH]; simpl.
  - by destruct (utf8_encode s2).
  - destruct (utf8_encode_char c) as [l|]; simpl; [|done]. rewrite IH.
    destruct (utf8_encode s1) as [l1|]; simpl; [|done].
    destruct (utf8_encode s2) as [l2|]; simpl; [|done].
    by rewrite app_assoc.
Qed.

Lemma delimiters_boundary content_type boundary bb :
  get_header_opt (u "boundary") content_type = Ok boundary ->
  utf8_encode boundary = Some bb ->
  delimiters content_type = Ok (separator_of bb, terminator_of bb).
Proof.
  intros Hb Hbb. unfold delimiters. rewrite Hb. cbn [mbind result_bind].
  rewrite !utf8_encode_app, Hbb. done.
Qed.

Lemma separator_of_line bb : LF ∉ bb -> is_line (separator_of bb).
Proof.
  intros Hbb. unfold separator_of. change (b "\r\n") with CRLF.
  rewrite app_assoc. apply is_line_crlf.
  rewrite not_elem_of_app. split; [by_decide|done].
Qed.

Lemma terminator_of_line bb : LF ∉ bb -> is_line (terminator_of bb).
Proof.
  intros Hbb. unfold terminator_of.
  change (b "--\r\n") with (b "--" ++ CRLF).
  rewrite !app_assoc. apply is_line_crlf.
  rewrite !not_elem_of_app. split_and!; [by_decide|done|by_decide].
Qed.

Lemma separator_terminator_of bb : separator_of bb <> terminator_of bb.
Proof.
  intros Heq%(f_equal length). unfold separator_of, terminator_of in Heq.
  rewrite !length_app in Heq. simpl in Heq. lia.
Qed.

(** ** Whole calls *)

Lemma returns_run content_type sep term req_body o :
  delimiters content_type = Ok (sep, term) ->
  terminates sep term (State SeekingFirstBoundary req_body [] []) o ->
  returns content_type req_body o.
Proof.
  intros Hd [n Hn]. exists n. intros fuel Hfuel. unfold parse_multipart.
  rewrite Hd. by apply Hn.
Qed.

Lemma returns_functional content_type req_body o o' :
  returns content_type req_body o -> returns content_type req_body o' -> o = o'.
Proof.
  intros [n Hn] [n' Hn'].
  specialize (Hn (n `max` n')%nat). specialize (Hn' (n `max` n')%nat).
  rewrite Hn in Hn' by lia. apply Some_inj, Hn'. lia.
Qed.

Lemma disposition_decodes line form_name filename :
  disposition line = Ok (form_name, filename) ->
  is_Some (utf8_decode (rstrip line)).
Proof.
  unfold disposition. destruct (utf8_decode (rstrip line)); [eauto|done].
Qed.

Lemma complete_crlf s : complete (s ++ CRLF) = true.
Proof.
  apply bool_decide_eq_true. right.
  replace (s ++ CRLF) with ((s ++ [CR]) ++ [LF]) by by rewrite <-app_assoc.
  apply last_snoc.
Qed.

Lemma take_crlf s : take (length (s ++ CRLF) - 2) (s ++ CRLF) = s.
Proof. apply take_app_length'. rewrite length_app. simpl. lia. Qed.

(** The decoding of a body on the wire whose last part has the bytes [raw]
    before the terminator line. *)
Lemma decode_wire_raw content_type boundary bb ps q raw :
  get_header_opt (u "boundary") content_type = Ok boundary ->
  utf8_encode boundary = Some bb ->
  LF ∉ bb ->
  forallb (part_ok (separator_of bb) (terminator_of bb)) ps = true ->
  headers_ok q = true -> complete raw = true ->
  delimiter_free (separator_of bb) (terminator_of bb) raw = true ->
  exists es, Forall2 entry_for (ps ++ [q]) es /\
    buf <$> es = seq 0 (length (ps ++ [q])) /\
    returns content_type
      (wire_raw (separator_of bb) (terminator_of bb) ps q raw)
      (if decide (2 <= length raw)%nat
       then Ok (es, ((fun p => file_of (payload p ++ CRLF)) <$> ps)
                      ++ [file_of (take (length raw - 2) raw)])
       else Raise OSError).
Proof.
  intros Hb Hbb Hlf Hps Hq Hc Hfree.
  destruct (decode_wire (separator_of bb) (terminator_of bb)
              (separator_of_line _ Hlf) (terminator_of_line _ Hlf)
              (separator_terminator_of bb) ps q raw Hps Hq Hc Hfree)
    as (es & Hes & Hbufs & Hterm).
  exists es. split_and!; [done|done|].
  eapply returns_run; [by eapply delimiters_boundary|done].
Qed.

(** ** What every turn keeps *)

Lemma readline_rest s line rest :
  readline s = (line, rest) ->
  (line = [] \/ line ∈ readlines s) /\ readlines rest ⊆ readlines s.
Proof.
  intros Hr. destruct (decide (s = [])) as [->|Hs].
  - simplify_eq/=. split; [by left|done].
  - rewrite readlines_readline, Hr by done. simpl. split; [right; left|].
    intros x Hx. by right.
Qed.

Lemma readline_Forall (P : byte -> Prop) s line rest :
  readline s = (line, rest) -> Forall P s -> Forall P line /\ Forall P rest.
Proof.
  revert line rest. induction s as [|c s IH]; intros line rest Hr Hs.
  - by simplify_eq/=.
  - simpl in Hr. apply Forall_cons in Hs as [Hc Hs]. case_decide.
    + simplify_eq. by repeat constructor.
    + destruct (readline s) as [l r]. simplify_eq.
      destruct (IH l rest eq_refl Hs). split; [by constructor|done].
Qed.

Lemma drop_while_Forall {A} (P : A -> Prop) (f : A -> bool) (l : list A) :
  Forall P l -> Forall P (drop_while f l).
Proof.
  induction 1 as [|x l Hx Hl IH]; simpl; [done|].
  destruct (f x); [done|by constructor].
Qed.

Lemma utf8_decode_ascii l : Forall ascii_byte l -> is_Some (utf8_decode l).
Proof.
  induction 1 as [|c l Hc Hl [s Hs]]; simpl; [eauto|].
  unfold ascii_byte in Hc. apply N.ltb_lt in Hc. rewrite Hc, Hs. simpl. eauto.
Qed.

Lemma disposition_raises line e :
  disposition line = Raise e ->
  e = UnicodeDecodeError /\ utf8_decode (rstrip line) = None.
Proof.
  unfold disposition. destruct (utf8_decode (rstrip line)) as [header|]; simpl.
  - destruct (get_header_opt_total (u "name") header) as [v1 ->].
    destruct (get_header_opt_total (u "filename") header) as [v2 ->].
    done.
  - by intros [= <-].
Qed.

Section Invariants.
Variables separator terminator : bytes.
Implicit Types (st : state) (o : outcome).

Local Abbreviation Step := (step separator terminator).

(** Only the terminator line lets the call return, and without it the
    one exception is that of a Content-Disposition line which is not
    text. *)
Lemma step_without_terminator st :
  terminator <> [] -> terminator ∉ readlines (req_body st) ->
  match Step st with
  | inl st' => terminator ∉ readlines (req_body st')
  | inr o => o = Raise UnicodeDecodeError
  end.
Proof.
  intros Hne Hterm. unfold_step.
  destruct (readline (req_body st)) as [line rest] eqn:Hr.
  apply readline_rest in Hr as [Hline Hrest].
  assert (terminator ∉ readlines rest) by (intros ?; by apply Hterm, Hrest).
  assert (line <> terminator) by (intros ->; by destruct Hline).
  destruct (ctl st); repeat case_decide; try done.
  - destruct (negb _); [done|].
    destruct (disposition line) as [[??]|e] eqn:Hd; [done|].
    by apply disposition_raises in Hd as [-> _].
  - unfold finish. by rewrite decide_False.
Qed.

Lemma step_ascii st :
  terminator <> [] -> terminator ∉ readlines (req_body st) ->
  Forall ascii_byte (req_body st) ->
  exists st', Step st = inl st'
    /\ (terminator ∉ readlines (req_body st'))
    /\ Forall ascii_byte (req_body st').
Proof.
  intros Hne Hterm Hascii. unfold_step.
  destruct (readline (req_body st)) as [line rest] eqn:Hr.
  pose proof (readline_Forall ascii_byte _ _ _ Hr Hascii) as [Hline Hrest].
  apply readline_rest in Hr as [Hl Hr].
  assert (terminator ∉ readlines rest) by (intros ?; by apply Hterm, Hr).
  assert (line <> terminator) by (intros ->; by destruct Hl).
  destruct (ctl st) as [| |fn fname h|fn fname h]; repeat case_decide; eauto.
  - destruct (negb _); [eauto|].
    destruct (disposition line) as [[??]|e] eqn:Hd; [eauto|].
    apply disposition_raises in Hd as [_ Hd].
    destruct (utf8_decode_ascii (rstrip line)) as [? ?]; [|congruence].
    unfold rstrip. by apply Forall_reverse, drop_while_Forall, Forall_reverse.
  - unfold finish. rewrite decide_False by done. eauto.
Qed.

Lemma run_ascii fuel st :
  terminator <> [] -> terminator ∉ readlines (req_body st) ->
  Forall ascii_byte (req_body st) ->
  run separator terminator fuel st = None.
Proof.
  intros Hne. revert st. induction fuel as [|fuel IH]; intros st Ht Ha; [done|].
  destruct (step_ascii st Hne Ht Ha) as (st' & Hs & Ht' & Ha').
  simpl. rewrite Hs. by apply IH.
Qed.

Lemma write_cursor_at_end f line : cursor_at_end f -> cursor_at_end (write f line).
Proof.
  destruct f as [d p]. unfold cursor_at_end. simpl. intros ->.
  change (File d (length d)) with (file_of d). by rewrite write_at_end.
Qed.

Lemma seal_cursor_at_end f f' :
  cursor_at_end f -> seek f (-2) 2 = Ok f' -> cursor_at_end (truncate f').
Proof.
  destruct f as [d p]. unfold cursor_at_end, tell at 1. cbn [pos data].
  intros -> Hseek. change (File d (length d)) with (file_of d) in Hseek.
  pose proof (seal_file d) as Hseal.
  rewrite Hseek in Hseal. cbn [mbind result_bind] in Hseal.
  case_decide; [|done]. assert (truncate f' = file_of (take (length d - 2) d))
    as -> by congruence.
  done.
Qed.

Lemma step_files_ok st :
  files_ok st ->
  match Step st with
  | inl st' => files_ok st'
  | inr (Ok (parts, files)) =>
    Forall (fun e => exists f, files !! buf e = Some f /\ cursor_at_end f) parts
  | inr (Raise _) => True
  end.
Proof.
  intros (Hfiles & Hparts & Hbuf). unfold_step.
  destruct (readline (req_body st)) as [line rest].
  destruct (ctl st) as [| |fn fname h|fn fname h]; repeat case_decide;
    try by (split_and!).
  - destruct (negb _); [by split_and!|].
    destruct (disposition line) as [[??]|e]; [|done].
    unfold files_ok. cbn [ctl files multipart_form_data]. rewrite length_app.
    split_and!.
    + apply Forall_app. split; [done|]. by repeat constructor.
    + eapply Forall_impl; [exact Hparts|]. simpl. intros; lia.
    + simpl. lia.
  - unfold finish. case_decide.
    + destruct (files st !! h) as [f|] eqn:Hh; [|done].
      cbn [or_raise mbind result_bind].
      destruct (seek f (-2) 2) as [f'|] eqn:Hseek; [|done].
      cbn [mbind result_bind].
      assert (Forall cursor_at_end (<[h:=truncate f']> (files st))) as Hfiles'.
      { apply Forall_insert; [done|]. eapply seal_cursor_at_end; [|done].
        by eapply (Forall_lookup_1 _ _ _ _ Hfiles). }
      assert (forall e, (buf e < length (files st))%nat ->
                exists f, <[h:=truncate f']> (files st) !! buf e = Some f
                          /\ cursor_at_end f) as Hlook.
      { intros e He.
        destruct (lookup_lt_is_Some_2 (<[h:=truncate f']> (files st)) (buf e))
          as [g Hg]; [by rewrite length_insert|].
        exists g. split; [done|]. by eapply (Forall_lookup_1 _ _ _ _ Hfiles'). }
      apply Forall_app. split.
      * eapply Forall_impl; [exact Hparts|]. done.
      * repeat constructor. by apply Hlook.
    + unfold files_ok. cbn [ctl files multipart_form_data]. split_and!; [done| |done].
      apply Forall_app. split; [done|]. by repeat constructor.
  - unfold files_ok. cbn [ctl files multipart_form_data]. rewrite length_alter.
    split_and!; [|done|done].
    apply Forall_alter; [done|]. intros f _. apply write_cursor_at_end.
Qed.
End Invariants.

(** ** The properties of the decoder *)

(** C1 (the code differs).  The specification: every part loses the CRLF
    before its delimiter line, whether a separator or the terminator ends
    it.  The decoder cuts the two bytes off only under [if line == terminator]: in
    this body of two parts the buffer of the first, which a separator
    ends, still ends with CRLF, and only the second is trimmed. *)
Theorem separator_sealed_part_keeps_crlf :
  parse_multipart 20 (u "multipart/form-data; boundary=XYZ")
    (b "--XYZ\r\nContent-Disposition: form-data; name=\x22files\x22; filename=\x22a.txt\x22\r\n\r\nfirst\r\n--XYZ\r\nContent-Disposition: form-data; name=\x22files\x22; filename=\x22b.txt\x22\r\n\r\nsecond\r\n--XYZ--\r\n")
  = Some (Ok ([Part (u "files") (u "a.txt") 0; Part (u "files") (u "b.txt") 1],
              [file_of (b "first\r\n"); file_of (b "second")])).
Proof. vm_compute. reflexivity. Qed.

(** C2, as the specification has it, fails: on a stream that ends after
    the payload of its only part, with no terminator line, the call never
    comes to an end, whatever the number of turns; it does not fail. *)
Lemma eof_before_terminator_never_ends :
  ~ exists fuel o,
      parse_multipart fuel (u "multipart/form-data; boundary=XYZ")
        (b "--XYZ\r\nContent-Disposition: form-data; name=\x22text\x22\r\n\r\nhello\r\n")
      = Some o.
Proof.
  intros (fuel & o & Hrun). unfold parse_multipart in Hrun.
  change (delimiters (u "multipart/form-data; boundary=XYZ"))
    with (@Ok (bytes * bytes) (b "--XYZ\r\n", b "--XYZ--\r\n")) in Hrun.
  cbn iota beta in Hrun. rewrite run_ascii in Hrun; [done|done|by_decide|by_decide].
Qed.

(** C2 (amended).  On a stream in which the terminator line never arrives
    the call neither returns parts nor reports a malformed body: at the end
    of the stream every read gives the empty bytes and the loop goes on.
    The call can only end by the decoding error of a Content-Disposition
    line that is not UTF-8, and on an ASCII stream it never ends. *)
Theorem no_terminator_never_returns content_type separator terminator body :
  delimiters content_type = Ok (separator, terminator) ->
  terminator ∉ readlines body ->
  (forall fuel,
     parse_multipart fuel content_type body = None
     \/ parse_multipart fuel content_type body = Some (Raise UnicodeDecodeError))
  /\ (Forall ascii_byte body -> hangs content_type body).
Proof.
  intros Hd Hterm.
  assert (terminator <> []) as Hne.
  { unfold delimiters in Hd.
    destruct (get_header_opt _ _) as [boundary|]; [|done].
    cbn [mbind result_bind] in Hd. rewrite !utf8_encode_app in Hd.
    destruct (utf8_encode boundary) as [bb|]; [|done]. by simplify_eq/=. }
  split.
  - intros fuel. unfold parse_multipart. rewrite Hd.
    destruct (run _ _ _ _) as [o|] eqn:Hrun; [right|by left]. f_equal.
    revert Hrun. apply (run_invariant separator terminator
      (fun st => terminator ∉ readlines (req_body st))
      (fun o => o = Raise UnicodeDecodeError)); [| |done].
    + intros st st' Hst Hs.
      pose proof (step_without_terminator separator terminator st Hne Hst) as H.
      by rewrite Hs in H.
    + intros st o' Hst Hs.
      pose proof (step_without_terminator separator terminator st Hne Hst) as H.
      by rewrite Hs in H.
  - intros Hascii fuel. unfold parse_multipart. rewrite Hd. by apply run_ascii.
Qed.

Lemma no_terminator_never_returns_witness :
  delimiters (u "multipart/form-data; boundary=XYZ")
    = Ok (b "--XYZ\r\n", b "--XYZ--\r\n")
  /\ (b "--XYZ--\r\n" ∉ readlines (b "Content-Disposition: form-data; name=\x22a\x22\r\n\r\nhello\r\n"))
  /\ hangs (u "multipart/form-data; boundary=XYZ")
       (b "Content-Disposition: form-data; name=\x22a\x22\r\n\r\nhello\r\n").
Proof.
  assert (b "--XYZ--\r\n" ∉ readlines (b "Content-Disposition: form-data; name=\x22a\x22\r\n\r\nhello\r\n"))
    as Hterm by by_decide.
  split_and!; [reflexivity|exact Hterm|].
  apply (no_terminator_never_returns _ (b "--XYZ\r\n") (b "--XYZ--\r\n") _);
    [reflexivity|exact Hterm|by_decide].
Defined.

(** C3, as the specification has it, fails: with a Content-Type that has no
    boundary parameter the call raises nothing and returns a part. *)
Lemma missing_boundary_decodes :
  parse_multipart 10 (u "multipart/form-data")
    (b "--\r\nContent-Disposition: form-data; name=\x22text\x22\r\n\r\nhello\r\n----\r\n")
  = Some (Ok ([Part (u "text") [] 0], [file_of (b "hello")])).
Proof. vm_compute. reflexivity. Qed.

(** C3 (amended).  For a Content-Type in which [boundary=] does not occur,
    and for any in which the extractor finds no boundary value, the
    boundary is the empty string and no error is raised: the call goes on
    with the separator line [--CRLF] and the terminator line [----CRLF]. *)
Theorem missing_boundary_is_empty content_type :
  (find (u "boundary=") content_type = None ->
   get_header_opt (u "boundary") content_type = Ok [])
  /\ (get_header_opt (u "boundary") content_type = Ok [] ->
      delimiters content_type = Ok (b "--\r\n", b "----\r\n")
      /\ forall fuel body,
           parse_multipart fuel content_type body
           = run (b "--\r\n") (b "----\r\n") fuel
               (State SeekingFirstBoundary body [] [])).
Proof.
  split.
  - intros Hfind. unfold get_header_opt.
    by rewrite (search_absent (u "boundary") content_type Hfind).
  - intros Hb.
    assert (delimiters content_type = Ok (b "--\r\n", b "----\r\n")) as Hd
      by (unfold delimiters; by rewrite Hb).
    split; [done|]. intros fuel body. unfold parse_multipart. by rewrite Hd.
Qed.

Lemma missing_boundary_is_empty_witness :
  find (u "boundary=") (u "multipart/form-data") = None
  /\ get_header_opt (u "boundary") (u "multipart/form-data; boundary=") = Ok []
  /\ delimiters (u "multipart/form-data") = Ok (b "--\r\n", b "----\r\n")
  /\ delimiters (u "multipart/form-data; boundary=") = Ok (b "--\r\n", b "----\r\n").
Proof.
  split_and!; [reflexivity|reflexivity| |].
  - apply (missing_boundary_is_empty (u "multipart/form-data")).
    apply (missing_boundary_is_empty (u "multipart/form-data")). reflexivity.
  - apply (missing_boundary_is_empty (u "multipart/form-data; boundary=")).
    reflexivity.
Defined.

(** C4.  Round trip: the body made of the separator line, a
    Content-Disposition line, the blank line, [C], CRLF and the terminator
    line decodes to exactly one part, whose buffer holds [C], whatever the
    bytes of [C] are, as long as no line of [C ++ CRLF] is a delimiter
    line. *)
Theorem round_trip content_type boundary bb cd name fname C :
  get_header_opt (u "boundary") content_type = Ok boundary ->
  utf8_encode boundary = Some bb ->
  LF ∉ bb ->
  LF ∉ cd ->
  startswith cd (b "Content-Disposition:") = true ->
  disposition (cd ++ CRLF) = Ok (name, fname) ->
  separator_of bb ∉ readlines (C ++ CRLF) ->
  terminator_of bb ∉ readlines (C ++ CRLF) ->
  returns content_type
    (separator_of bb ++ cd ++ CRLF ++ CRLF ++ C ++ CRLF ++ terminator_of bb)
    (Ok ([Part name fname 0], [file_of C]))
  /\ content [file_of C] (Part name fname 0) = Some C.
Proof.
  intros Hb Hbb Hlf Hcd Hstart Hdisp Hsep Hterm. split; [|done].
  destruct (decode_wire_raw content_type boundary bb [] (WirePart [] cd [] C)
              (C ++ CRLF) Hb Hbb Hlf) as (es & Hes & Hbufs & Hret).
  - done.
  - unfold headers_ok. cbn [leading_lines disposition_line header_lines forallb].
    rewrite Hstart, !bool_decide_eq_true_2; [done| |done].
    by eapply disposition_decodes.
  - apply complete_crlf.
  - unfold delimiter_free. by rewrite !bool_decide_eq_true_2.
  - rewrite decide_True, take_crlf in Hret by (rewrite length_app; simpl; lia).
    apply Forall2_cons_inv_l in Hes as (e & es' & He & ->%Forall2_nil_inv_l & ->).
    unfold entry_for in He. cbn [disposition_line] in He. rewrite Hdisp in He.
    destruct e as [n f h]. cbn [form_name filename buf] in *.
    injection He as <- <-. injection Hbufs as <-.
    replace (separator_of bb ++ cd ++ CRLF ++ CRLF ++ C ++ CRLF ++ terminator_of bb)
      with (wire_raw (separator_of bb) (terminator_of bb) [] (WirePart [] cd [] C)
              (C ++ CRLF)); [done|].
    unfold wire_raw, wire_headers.
    cbn [leading_lines disposition_line header_lines].
    csimpl. by rewrite <-!app_assoc.
Qed.

Lemma round_trip_witness :
  returns (u "multipart/form-data; boundary=XYZ")
    (b "--XYZ\r\nContent-Disposition: form-data; name=\x22text\x22\r\n\r\nline\r\n\r\n--XYZ \r\n\x00\xff--XYZ--\r\nhello\r\n--XYZ--\r\n")
    (Ok ([Part (u "text") [] 0],
         [file_of (b "line\r\n\r\n--XYZ \r\n\x00\xff--XYZ--\r\nhello")])).
Proof.
  apply (round_trip (u "multipart/form-data; boundary=XYZ") (u "XYZ") (b "XYZ")
           (b "Content-Disposition: form-data; name=\x22text\x22")
           (u "text") [] (b "line\r\n\r\n--XYZ \r\n\x00\xff--XYZ--\r\nhello"));
    try reflexivity; by_decide.
Defined.

(** C5.  Multiplicity and order: a well-formed body of N parts, each with
    its Content-Disposition line, decodes to exactly N entries, in the
    order of the body: entry [i] has the names of the Content-Disposition
    line of part [i] and the [i]-th file, which holds the payload of part
    [i] (with the CRLF before the separator, for a part that a separator
    ends).  Nothing is merged when names are equal. *)
Theorem multiplicity_and_order content_type boundary bb ps q :
  get_header_opt (u "boundary") content_type = Ok boundary ->
  utf8_encode boundary = Some bb ->
  LF ∉ bb ->
  forallb (part_ok (separator_of bb) (terminator_of bb)) (ps ++ [q]) = true ->
  exists entries,
    returns content_type (wire (separator_of bb) (terminator_of bb) ps q)
      (Ok (entries, ((fun p => file_of (payload p ++ CRLF)) <$> ps)
                      ++ [file_of (payload q)]))
    /\ length entries = length (ps ++ [q])
    /\ Forall2 entry_for (ps ++ [q]) entries
    /\ buf <$> entries = seq 0 (length (ps ++ [q])).
Proof.
  intros Hb Hbb Hlf Hok. rewrite forallb_app in Hok.
  apply andb_prop in Hok as [Hps Hq]. simpl in Hq. rewrite andb_true_r in Hq.
  apply andb_prop in Hq as [Hq Hfree].
  destruct (decode_wire_raw content_type boundary bb ps q (payload q ++ CRLF)
              Hb Hbb Hlf Hps Hq (complete_crlf _) Hfree)
    as (es & Hes & Hbufs & Hret).
  rewrite decide_True, take_crlf in Hret by (rewrite length_app; simpl; lia).
  exists es. split_and!; [done| |done|done].
  symmetry. by eapply Forall2_length.
Qed.

Lemma multiplicity_and_order_witness :
  returns (u "multipart/form-data; boundary=XYZ")
    (b "--XYZ\r\nContent-Disposition: form-data; name=\x22files\x22; filename=\x22a.bin\x22\r\nContent-Type: application/octet-stream\r\n\r\n\x00\x01\r\n\x02\r\n--XYZ\r\nContent-Type: application/octet-stream\r\nContent-Disposition: form-data; name=\x22files\x22; filename=\x22b.bin\x22\r\n\r\n\xff\xfe\r\n--XYZ\r\nContent-Disposition: form-data; name=\x22text\x22\r\n\r\n\r\n--XYZ--\r\n")
    (Ok ([Part (u "files") (u "a.bin") 0; Part (u "files") (u "b.bin") 1;
          Part (u "text") [] 2],
         [file_of (b "\x00\x01\r\n\x02\r\n"); file_of (b "\xff\xfe\r\n");
          file_of []])).
Proof.
  destruct (multiplicity_and_order (u "multipart/form-data; boundary=XYZ")
              (u "XYZ") (b "XYZ")
              [WirePart [] (b "Content-Disposition: form-data; name=\x22files\x22; filename=\x22a.bin\x22")
                        [b "Content-Type: application/octet-stream"]
                        (b "\x00\x01\r\n\x02");
               WirePart [b "Content-Type: application/octet-stream"]
                        (b "Content-Disposition: form-data; name=\x22files\x22; filename=\x22b.bin\x22")
                        [] (b "\xff\xfe")]
              (WirePart [] (b "Content-Disposition: form-data; name=\x22text\x22") [] []))
    as (entries & Hret & _ & Hentries & Hbufs);
    [reflexivity|reflexivity|by_decide|reflexivity|].
  destruct entries as [|[n0 f0 h0] [|[n1 f1 h1] [|[n2 f2 h2] [|]]]];
    [discriminate Hbufs..| |discriminate Hbufs].
  injection Hbufs as -> -> ->.
  apply Forall2_cons_1 in Hentries as [H0 Hentries].
  apply Forall2_cons_1 in Hentries as [H1 Hentries].
  apply Forall2_cons_1 in Hentries as [H2 _].
  injection H0 as <- <-. injection H1 as <- <-. injection H2 as <- <-.
  exact Hret.
Defined.

(** C9.  The last two bytes are cut off with a seek to two bytes before
    the end of the file.  Whenever the terminator line is read for a part,
    the call returns if the file of the part holds two bytes or more, and
    raises [OSError] if it holds fewer.  So for a body whose last part has
    the terminator line right after its blank line, or after a single
    byte, the call raises in place of returning; it returns exactly when
    two bytes or more were written for the last part. *)
Theorem seal_needs_two_bytes :
  (forall separator terminator name fname h fs parts body f,
     fs !! h = Some f -> cursor_at_end f ->
     (readline body).1 = terminator ->
     step separator terminator (State (AccumulatingBody name fname h) body fs parts)
     = inr (if decide (2 <= length (data f))%nat
            then Ok (parts ++ [Part name fname h],
                     <[h := file_of (take (length (data f) - 2) (data f))]> fs)
            else Raise OSError))
  /\ (forall content_type boundary bb ps q raw,
        get_header_opt (u "boundary") content_type = Ok boundary ->
        utf8_encode boundary = Some bb ->
        LF ∉ bb ->
        forallb (part_ok (separator_of bb) (terminator_of bb)) ps = true ->
        headers_ok q = true ->
        complete raw = true ->
        delimiter_free (separator_of bb) (terminator_of bb) raw = true ->
        let body := wire_raw (separator_of bb) (terminator_of bb) ps q raw in
        (returns content_type body (Raise OSError) <-> (length raw < 2)%nat)
        /\ ((exists entries fs, returns content_type body (Ok (entries, fs)))
            <-> (2 <= length raw)%nat)).
Proof.
  split.
  - intros separator terminator name fname h fs parts body f Hh Hf Hline.
    unfold_step. destruct (readline body) as [line rest]. cbn [fst] in Hline.
    subst line. rewrite decide_True by by right. unfold finish.
    rewrite decide_True, Hh by done. cbn [or_raise mbind result_bind].
    assert (f = file_of (data f)) as Hfile
      by (destruct f; unfold cursor_at_end, tell in Hf; simpl in *; by subst).
    pose proof (seal_file (data f)) as Hseal. rewrite <-Hfile in Hseal.
    destruct (seek f (-2) 2) as [f'|e]; cbn [mbind result_bind] in *.
    + case_decide; [|done].
      assert (truncate f' = file_of (take (length (data f) - 2) (data f))) as ->
        by congruence.
      done.
    + case_decide; [done|]. by simplify_eq.
  - intros content_type boundary bb ps q raw Hb Hbb Hlf Hps Hq Hc Hfree body.
    destruct (decode_wire_raw content_type boundary bb ps q raw
                Hb Hbb Hlf Hps Hq Hc Hfree) as (es & _ & _ & Hret).
    fold body in Hret. case_decide as Hlen; split; split.
    + intros Hraise. by pose proof (returns_functional _ _ _ _ Hret Hraise).
    + lia.
    + done.
    + eauto.
    + intros _. lia.
    + done.
    + intros (entries & files & Hok).
      by pose proof (returns_functional _ _ _ _ Hret Hok).
    + lia.
Qed.

Lemma seal_needs_two_bytes_witness :
  step (b "--XYZ\r\n") (b "--XYZ--\r\n")
    (State (AccumulatingBody (u "text") [] 0) (b "--XYZ--\r\n") [file_of (b "\n")] [])
  = inr (Raise OSError)
  /\ returns (u "multipart/form-data; boundary=XYZ")
       (b "--XYZ\r\nContent-Disposition: form-data; name=\x22text\x22\r\n\r\n--XYZ--\r\n")
       (Raise OSError).
Proof.
  destruct seal_needs_two_bytes as [Hstep Hbody]. split.
  - apply (Hstep (b "--XYZ\r\n") (b "--XYZ--\r\n") (u "text") [] 0%nat
             [file_of (b "\n")] [] (b "--XYZ--\r\n") (file_of (b "\n")));
      reflexivity.
  - apply (Hbody (u "multipart/form-data; boundary=XYZ") (u "XYZ") (b "XYZ") []
             (WirePart [] (b "Content-Disposition: form-data; name=\x22text\x22") [] [])
             []); try reflexivity; [by_decide|simpl; lia].
Defined.

(** C6.  Boundary exactness: while the body of a part is read, the line
    just read ends the part if and only if it is, byte for byte, the
    separator or the terminator: the terminator ends the call, the
    separator closes the part and leaves its file as it is, and any other
    line is written to the file of the part as it is, after what the file
    holds. *)
Theorem boundary_exactness separator terminator name fname h fs parts body f :
  fs !! h = Some f ->
  cursor_at_end f ->
  let st := State (AccumulatingBody name fname h) body fs parts in
  let line := (readline body).1 in
  let rest := (readline body).2 in
  (line <> separator -> line <> terminator ->
   step separator terminator st
   = inl (State (AccumulatingBody name fname h) rest
                (<[h := file_of (data f ++ line)]> fs) parts))
  /\ (line = separator -> line <> terminator ->
      step separator terminator st
      = inl (State SeekingDisposition rest fs (parts ++ [Part name fname h])))
  /\ (line = terminator -> exists o, step separator terminator st = inr o)
  /\ ((exists fs', step separator terminator st
                   = inl (State (AccumulatingBody name fname h) rest fs' parts))
      <-> ~ (line = separator \/ line = terminator)).
Proof.
  intros Hh Hf st line rest. subst st line rest. unfold_step.
  destruct (readline body) as [line rest]. cbn [fst snd].
  assert (f = file_of (data f)) as Hfile
    by (destruct f; unfold cursor_at_end, tell in Hf; simpl in *; by subst).
  split_and!.
  - intros Hs Ht. rewrite decide_False by (intros [?|?]; done).
    by rewrite (alter_lookup _ _ _ _ Hh), Hfile, write_at_end.
  - intros Hs Ht. rewrite decide_True by by left. unfold finish.
    by rewrite decide_False.
  - intros Ht. rewrite decide_True by by right. unfold finish.
    rewrite decide_True by done. eauto.
  - case_decide as Hd; split.
    + unfold finish. case_decide; [by intros [? ?]|]. intros [? ?]. simplify_eq.
    + done.
    + done.
    + eauto.
Qed.

Lemma boundary_exactness_witness :
  step (b "--XYZ\r\n") (b "--XYZ--\r\n")
    (State (AccumulatingBody (u "text") [] 0)
           (b "--XYZ \r\n--XYZ--\r\n") [file_of (b "--ABC\r\n")] [])
  = inl (State (AccumulatingBody (u "text") [] 0) (b "--XYZ--\r\n")
               [file_of (b "--ABC\r\n--XYZ \r\n")] []).
Proof.
  apply (boundary_exactness (b "--XYZ\r\n") (b "--XYZ--\r\n") (u "text") [] 0
           [file_of (b "--ABC\r\n")] [] (b "--XYZ \r\n--XYZ--\r\n")
           (file_of (b "--ABC\r\n"))); [reflexivity|reflexivity|by_decide|by_decide].
Defined.




(** C8, as the specification has it, fails: the buffer of the part of this body is
    returned with its cursor at offset 5, after the five bytes of hello. *)
Lemma returned_cursor_not_at_start :
  ~ (forall parts fs,
       parse_multipart 10 (u "multipart/form-data; boundary=XYZ")
         (b "--XYZ\r\nContent-Disposition: form-data; name=\x22text\x22\r\n\r\nhello\r\n--XYZ--\r\n")
       = Some (Ok (parts, fs)) ->
       Forall (fun e => exists f, fs !! buf e = Some f /\ tell f = 0%nat) parts).
Proof.
  intros Hall.
  specialize (Hall [Part (u "text") [] 0] [file_of (b "hello")] eq_refl).
  apply Forall_cons in Hall as [(f & Hf & Htell) _]. by simplify_eq/=.
Qed.

(** C8 (amended).  The decoder does not rewind the buffers: in every list
    it returns, the buffer of every part has its cursor at the end of its
    contents, whether a separator or the terminator has ended the part. *)
Theorem returned_cursor_at_end fuel content_type body parts fs :
  parse_multipart fuel content_type body = Some (Ok (parts, fs)) ->
  Forall (fun e => exists f, fs !! buf e = Some f /\ tell f = length (data f)) parts.
Proof.
  unfold parse_multipart.
  destruct (delimiters content_type) as [[separator terminator]|]; [|done].
  intros Hrun.
  refine (run_invariant separator terminator files_ok
    (fun o => match o with
              | Ok (parts, fs) =>
                Forall (fun e => exists f, fs !! buf e = Some f /\ cursor_at_end f) parts
              | Raise _ => True
              end) _ _ _ _ _ _ Hrun).
  - intros st st' Hst Hs.
    pose proof (step_files_ok separator terminator st Hst) as H. by rewrite Hs in H.
  - intros st o Hst Hs.
    pose proof (step_files_ok separator terminator st Hst) as H. by rewrite Hs in H.
  - by split_and!.
Qed.

Lemma returned_cursor_at_end_witness :
  Forall (fun e => exists f,
            [file_of (b "first\r\n"); file_of (b "second")] !! buf e = Some f
            /\ tell f = length (data f))
    [Part (u "files") (u "a.txt") 0; Part (u "files") (u "b.txt") 1].
Proof.
  apply (returned_cursor_at_end 20 (u "multipart/form-data; boundary=XYZ")
    (b "--XYZ\r\nContent-Disposition: form-data; name=\x22files\x22; filename=\x22a.txt\x22\r\n\r\nfirst\r\n--XYZ\r\nContent-Disposition: form-data; name=\x22files\x22; filename=\x22b.txt\x22\r\n\r\nsecond\r\n--XYZ--\r\n")).
  vm_compute. reflexivity.
Defined.

(** C10.  The extractor looks for the name of the parameter followed by
    the equals sign anywhere in the line, so that a search for name finds
    it inside filename: on this line, where the filename parameter comes
    first, the value extracted for name is that of filename. *)
Theorem name_matches_inside_filename :
  get_header_opt (u "name") (u "form-data; filename=\x22a.txt\x22; name=\x22x\x22")
  = Ok (u "a.txt").
Proof. reflexivity. Qed.

(** ** Sizes for the reader *)

Ltac lia_div := zify; Z.to_euclidean_division_equations; lia.

Lemma round_half_even_exact a : round_half_even a 1 = a.
Proof.
  unfold round_half_even. rewrite N.div_1_r, N.mod_1_r. simpl.
  by destruct (1 <? 0).
Qed.

Lemma round_half_even_near a d :
  0 < d ->
  2 * a <= 2 * round_half_even a d * d + d
  /\ 2 * round_half_even a d * d <= 2 * a + d.
Proof.
  intros Hd. unfold round_half_even.
  pose proof (N.div_mod a d ltac:(lia)) as Hdiv.
  pose proof (N.mod_lt a d ltac:(lia)) as Hmod.
  set (q := a / d) in *. set (r := a mod d) in *.
  destruct (N.ltb_spec d (2 * r)); simpl; [lia|].
  destruct (N.eqb_spec (2 * r) d); simpl; [destruct (N.odd q)|]; lia.
Qed.

Lemma human_bytes_units_near units num d :
  0 < d -> d <= num -> num < 1024 ^ N.of_nat (length units) * d ->
  exists k unit t,
    units !! k = Some unit
    /\ human_bytes_units units num d
       = decimal (t / 10) ++ u "." ++ decimal (t mod 10) ++ unit
    /\ 1024 ^ N.of_nat k * d <= num < 1024 ^ N.of_nat (S k) * d
    /\ 2 * (10 * num) <= 2 * t * (1024 ^ N.of_nat k * d) + 1024 ^ N.of_nat k * d
    /\ 2 * t * (1024 ^ N.of_nat k * d) <= 2 * (10 * num) + 1024 ^ N.of_nat k * d.
Proof.
  revert d. induction units as [|unit units IH]; intros d Hd Hlo Hhi.
  - simpl in Hhi. lia.
  - cbn [human_bytes_units]. change (length (unit :: units)) with (S (length units)) in Hhi.
    rewrite Nat2N.inj_succ, N.pow_succ_r' in Hhi.
    destruct (N.ltb_spec num (1024 * d)) as [Hlt|Hge].
    + exists 0%nat, unit, (round_half_even (10 * num) d).
      destruct (round_half_even_near (10 * num) d Hd).
      change (N.of_nat 1) with 1. change (N.of_nat 0) with 0.
      rewrite N.pow_0_r, N.pow_1_r, !N.mul_1_l.
      split_and!; try done. unfold format_1f. by rewrite <-!app_assoc.
    + destruct (IH (1024 * d)) as (k & unit' & t & Hk & Hfmt & Hrange & Hnear);
        [lia|lia|lia|].
      exists (S k), unit', t.
      rewrite (Nat2N.inj_succ (S k)), N.pow_succ_r'.
      rewrite (Nat2N.inj_succ k), N.pow_succ_r'.
      rewrite (Nat2N.inj_succ k), N.pow_succ_r' in Hrange.
      split_and!; try done; lia.
Qed.

Lemma decimal_digits_ascii fuel n acc :
  Forall (fun c => c < 128) acc ->
  Forall (fun c => c < 128) (decimal_digits fuel n acc).
Proof.
  revert n acc. induction fuel as [|fuel IH]; intros n acc Hacc; simpl; [done|].
  assert (Forall (fun c => c < 128) (48 + n mod 10 :: acc)).
  { constructor; [|done]. pose proof (N.mod_lt n 10). lia. }
  destruct (n / 10 =? 0); [done|]. by apply IH.
Qed.

Lemma decimal_ascii n : Forall (fun c => c < 128) (decimal n).
Proof. by apply decimal_digits_ascii. Qed.

(** X1.  A size below 1024 bytes is shown as it is, with [.0B] after
    it. *)
Theorem human_bytes_small num :
  num < 1024 -> human_bytes num = Done (decimal num ++ u ".0B").
Proof.
  intros Hnum%N.ltb_lt. unfold human_bytes, format_1f. rewrite Hnum.
  rewrite round_half_even_exact, N.mul_comm, N.div_mul, N.Div0.mod_mul by done.
  by rewrite <-app_assoc.
Qed.

Lemma human_bytes_small_witness : human_bytes 1023 = Done (u "1023.0B").
Proof. apply (human_bytes_small 1023). reflexivity. Defined.

(** X2.  A size below [2^40] bytes is shown in the unit [B], [K], [M] or
    [G] in which it is below 1024 (and 1 at least, but for [B]), as the
    tenths [t] of that unit nearest to it: what is shown is off by at most
    one twentieth of the unit. *)
Theorem human_bytes_near num :
  num < 2 ^ 40 ->
  exists k unit t,
    [u "B"; u "K"; u "M"; u "G"] !! k = Some unit
    /\ human_bytes num
       = Done (decimal (t / 10) ++ u "." ++ decimal (t mod 10) ++ unit)
    /\ (k = 0%nat \/ 1024 ^ N.of_nat k <= num)
    /\ num < 1024 ^ N.of_nat (S k)
    /\ 2 * (10 * num) <= 2 * t * 1024 ^ N.of_nat k + 1024 ^ N.of_nat k
    /\ 2 * t * 1024 ^ N.of_nat k <= 2 * (10 * num) + 1024 ^ N.of_nat k.
Proof.
  intros Hnum. unfold human_bytes.
  destruct (N.ltb_spec num 1024) as [Hlt|Hge].
  - exists 0%nat, (u "B"), (round_half_even (10 * num) 1).
    rewrite round_half_even_exact. unfold format_1f.
    rewrite round_half_even_exact, <-app_assoc.
    change (N.of_nat 0) with 0. change (N.of_nat 1) with 1.
    rewrite N.pow_0_r, N.pow_1_r. split_and!; try done; [by left|lia|lia].
  - destruct (N.leb_spec FLOAT_OVERFLOW num) as [Hover|_].
    { assert (2 ^ 40 < FLOAT_OVERFLOW) by (by vm_compute). lia. }
    destruct (human_bytes_units_near [u "K"; u "M"; u "G"] num 1024)
      as (k & unit & t & Hk & Hfmt & Hrange & Hlo & Hhi); [lia|lia| |].
    { change (1024 ^ N.of_nat 3 * 1024) with (2 ^ 40). done. }
    exists (S k), unit, t.
    rewrite (Nat2N.inj_succ (S k)), N.pow_succ_r'.
    rewrite (Nat2N.inj_succ k), N.pow_succ_r'.
    rewrite (Nat2N.inj_succ k), N.pow_succ_r' in Hrange.
    rewrite Hfmt. split_and!; try done; [right|..]; lia.
Qed.

Lemma human_bytes_near_witness :
  exists k unit t,
    [u "B"; u "K"; u "M"; u "G"] !! k = Some unit
    /\ human_bytes 123456789
       = Done (decimal (t / 10) ++ u "." ++ decimal (t mod 10) ++ unit)
    /\ (k = 0%nat \/ 1024 ^ N.of_nat k <= 123456789)
    /\ 123456789 < 1024 ^ N.of_nat (S k)
    /\ 2 * (10 * 123456789) <= 2 * t * 1024 ^ N.of_nat k + 1024 ^ N.of_nat k
    /\ 2 * t * 1024 ^ N.of_nat k <= 2 * (10 * 123456789) + 1024 ^ N.of_nat k.
Proof. apply (human_bytes_near 123456789). reflexivity. Defined.

(** X3.  A size of [2^40] bytes or more has no unit: it is shown as a
    question mark, and a number too large for a float makes the division
    raise [OverflowError]. *)
Theorem human_bytes_large num :
  2 ^ 40 <= num ->
  human_bytes num
  = if FLOAT_OVERFLOW <=? num then Fail OverflowError else Done (u "?").
Proof.
  intros Hnum. unfold human_bytes.
  destruct (N.ltb_spec num 1024) as [Hlt|_].
  { assert (1024 < 2 ^ 40) by (by vm_compute). lia. }
  destruct (FLOAT_OVERFLOW <=? num); [done|]. cbn [human_bytes_units].
  assert (2 ^ 40 = 1024 * (1024 * (1024 * 1024))) as Hpow by (by vm_compute).
  rewrite Hpow in Hnum.
  destruct (N.ltb_spec num (1024 * 1024)); [lia|].
  destruct (N.ltb_spec num (1024 * (1024 * 1024))); [lia|].
  destruct (N.ltb_spec num (1024 * (1024 * (1024 * 1024)))); [lia|]. done.
Qed.

Lemma human_bytes_large_witness : human_bytes (2 ^ 40) = Done (u "?").
Proof. apply (human_bytes_large (2 ^ 40)). reflexivity. Defined.

(** X4.  The number shown is not always below 1024: a size in the last
    twentieth below the next unit is rounded up and shown as [1024.0] of
    its own unit. *)
Theorem human_bytes_rounds_to_1024 k unit num :
  [u "K"; u "M"; u "G"] !! k = Some unit ->
  20479 * 1024 ^ N.of_nat (S k) <= 20 * num ->
  num < 1024 * 1024 ^ N.of_nat (S k) ->
  human_bytes num = Done (u "1024.0" ++ unit).
Proof.
  intros Hk Hlo Hhi.
  assert (forall d, 0 < d -> 20479 * d <= 20 * num -> num < 1024 * d ->
            format_1f num d = u "1024.0") as Hfmt.
  { intros d Hd Hl Hh. unfold format_1f.
    assert (round_half_even (10 * num) d = 10240) as ->; [|done].
    unfold round_half_even.
    pose proof (N.div_mod (10 * num) d ltac:(lia)) as Hdiv.
    pose proof (N.mod_lt (10 * num) d ltac:(lia)) as Hmod.
    set (q := 10 * num / d) in *. set (r := (10 * num) mod d) in *.
    assert (q = 10239) as Hq by nia.
    rewrite Hq in *.
    destruct (N.ltb_spec d (2 * r)); simpl; [done|].
    destruct (N.eqb_spec (2 * r) d); simpl; [done|]. lia. }
  unfold human_bytes.
  destruct (N.ltb_spec num 1024) as [Hlt|_].
  { rewrite Nat2N.inj_succ, N.pow_succ_r' in Hlo.
    pose proof (N.pow_nonzero 1024 (N.of_nat k) ltac:(done)). nia. }
  assert (1024 ^ N.of_nat 1 = 1024 /\ 1024 ^ N.of_nat 2 = 1048576
          /\ 1024 ^ N.of_nat 3 = 1073741824) as (H1 & H2 & H3) by done.
  assert (1024 * 1073741824 < FLOAT_OVERFLOW) by (by vm_compute).
  destruct k as [|[|[|k]]]; [| | |done]; injection Hk as <-;
    rewrite ?H1, ?H2, ?H3 in Hlo, Hhi;
    (destruct (N.leb_spec FLOAT_OVERFLOW num) as [Hover|_]; [lia|]);
    cbn [human_bytes_units].
  - rewrite (proj2 (N.ltb_lt num (1024 * 1024))) by lia.
    by rewrite (Hfmt 1024) by lia.
  - rewrite (proj2 (N.ltb_ge num (1024 * 1024))) by lia.
    rewrite (proj2 (N.ltb_lt num (1024 * (1024 * 1024)))) by lia.
    by rewrite (Hfmt (1024 * 1024)) by lia.
  - rewrite (proj2 (N.ltb_ge num (1024 * 1024))) by lia.
    rewrite (proj2 (N.ltb_ge num (1024 * (1024 * 1024)))) by lia.
    rewrite (proj2 (N.ltb_lt num (1024 * (1024 * (1024 * 1024))))) by lia.
    by rewrite (Hfmt (1024 * (1024 * 1024))) by lia.
Qed.

Lemma human_bytes_rounds_to_1024_witness :
  human_bytes 1048575 = Done (u "1024.0K").
Proof.
  apply (human_bytes_rounds_to_1024 0 (u "K") 1048575); [reflexivity|by vm_compute..].
Defined.

(** ** Names of text uploads *)

Lemma b32_digit_lower d :
  d < 32 -> ascii_lower (b32_char d) = if d <? 26 then 97 + d else 24 + d.
Proof.
  intros Hd. unfold ascii_lower, b32_char.
  destruct (N.ltb_spec d 26).
  - rewrite (proj2 (N.leb_le 65 (65 + d))), (proj2 (N.leb_le (65 + d) 90)) by lia.
    cbn [andb]. lia.
  - by rewrite (proj2 (N.leb_gt 65 (24 + d))) by lia.
Qed.

Lemma b32_digit_small d : d < 32 -> b32_small (ascii_lower (b32_char d)).
Proof.
  intros Hd. rewrite b32_digit_lower by done. unfold b32_small.
  destruct (N.ltb_spec d 26); lia.
Qed.

Lemma b32_digit_inj d d' :
  d < 32 -> d' < 32 ->
  ascii_lower (b32_char d) = ascii_lower (b32_char d') -> d = d'.
Proof.
  intros Hd Hd'. rewrite !b32_digit_lower by done.
  destruct (N.ltb_spec d 26), (N.ltb_spec d' 26); lia.
Qed.

Lemma b32_group_small c : Forall b32_small (ascii_lower <$> b32_group c).
Proof.
  unfold b32_group. rewrite <-list_fmap_compose. apply Forall_fmap, Forall_forall.
  intros i _. apply b32_digit_small, N.mod_lt. done.
Qed.

Lemma div_mod_eq (x y m : N) : x / m = y / m -> x mod m = y mod m -> x = y.
Proof. intros Hq Hr. rewrite (N.div_mod' x m), (N.div_mod' y m). congruence. Qed.

Lemma b32_group_inj c c' :
  c < 2 ^ 40 -> c' < 2 ^ 40 ->
  ascii_lower <$> b32_group c = ascii_lower <$> b32_group c' -> c = c'.
Proof.
  intros Hc Hc' Heq. unfold b32_group in Heq. cbn [fmap list_fmap] in Heq.
  injection Heq as H7 H6 H5 H4 H3 H2 H1 H0.
  apply b32_digit_inj in H7, H6, H5, H4, H3, H2, H1, H0;
    try (apply N.mod_lt; done).
  assert (forall k, c / 32 ^ N.succ k = c' / 32 ^ N.succ k ->
            (c / 32 ^ k) mod 32 = (c' / 32 ^ k) mod 32 ->
            c / 32 ^ k = c' / 32 ^ k) as Hstep.
  { intros k Hq Hr. apply (div_mod_eq _ _ 32); [|done].
    rewrite !N.Div0.div_div, <-!(N.mul_comm 32), <-!N.pow_succ_r'. done. }
  assert (c / 32 ^ 8 = c' / 32 ^ 8) as H8.
  { change (32 ^ 8) with (2 ^ 40). by rewrite !N.div_small. }
  pose proof (Hstep 7 H8 H7) as G7. pose proof (Hstep 6 G7 H6) as G6.
  pose proof (Hstep 5 G6 H5) as G5. pose proof (Hstep 4 G5 H4) as G4.
  pose proof (Hstep 3 G4 H3) as G3. pose proof (Hstep 2 G3 H2) as G2.
  pose proof (Hstep 1 G2 H1) as G1. pose proof (Hstep 0 G1 H0) as G0.
  by rewrite N.pow_0_r, !N.div_1_r in G0.
Qed.

Lemma int_from_bytes_5 b0 b1 b2 b3 b4 :
  int_from_bytes [b0; b1; b2; b3; b4]
  = 4294967296 * Byte.to_N b0 + 16777216 * Byte.to_N b1 + 65536 * Byte.to_N b2
    + 256 * Byte.to_N b3 + Byte.to_N b4.
Proof. unfold int_from_bytes. cbn [foldl]. lia. Qed.

Lemma to_N_inj (x y : byte) : Byte.to_N x = Byte.to_N y -> x = y.
Proof.
  intros Heq. apply (inj Some). by rewrite <-(Byte.of_to_N x), <-(Byte.of_to_N y), Heq.
Qed.

Lemma int_from_bytes_5_inj b0 b1 b2 b3 b4 c0 c1 c2 c3 c4 :
  int_from_bytes [b0; b1; b2; b3; b4] = int_from_bytes [c0; c1; c2; c3; c4] ->
  [b0; b1; b2; b3; b4] = [c0; c1; c2; c3; c4].
Proof.
  rewrite !int_from_bytes_5. intros Heq.
  pose proof (Byte.to_N_bounded b0). pose proof (Byte.to_N_bounded b1).
  pose proof (Byte.to_N_bounded b2). pose proof (Byte.to_N_bounded b3).
  pose proof (Byte.to_N_bounded b4). pose proof (Byte.to_N_bounded c0).
  pose proof (Byte.to_N_bounded c1). pose proof (Byte.to_N_bounded c2).
  pose proof (Byte.to_N_bounded c3). pose proof (Byte.to_N_bounded c4).
  repeat f_equal; apply to_N_inj; lia.
Qed.

Lemma int_from_bytes_5_bound b0 b1 b2 b3 b4 :
  int_from_bytes [b0; b1; b2; b3; b4] < 2 ^ 40.
Proof.
  rewrite int_from_bytes_5. change (2 ^ 40) with 1099511627776.
  pose proof (Byte.to_N_bounded b0). pose proof (Byte.to_N_bounded b1).
  pose proof (Byte.to_N_bounded b2). pose proof (Byte.to_N_bounded b3).
  pose proof (Byte.to_N_bounded b4). lia.
Qed.

Lemma rand_b32_str_groups k token :
  length token = (5 * k)%nat ->
  length (rand_b32_str token) = (8 * k)%nat
  /\ Forall b32_small (rand_b32_str token).
Proof.
  revert token. induction k as [|k IH]; intros token Hlen.
  - by destruct token.
  - destruct token as [|b0 [|b1 [|b2 [|b3 [|b4 token]]]]]; simpl in Hlen; try lia.
    destruct (IH token) as [Hl Hall]; [lia|].
    unfold rand_b32_str in *. cbn [b32encode]. rewrite fmap_app, length_app.
    split.
    + rewrite Hl. unfold b32_group. rewrite !length_fmap. simpl. lia.
    + apply Forall_app. split; [apply b32_group_small|done].
Qed.

(** X5.  For a token of a whole number of groups of five bytes (the token
    of the default call has one) the string has eight characters for
    every five bytes, all of them small letters or digits from 2 to 7: no
    padding, nothing that a file name cannot hold. *)
Theorem rand_b32_str_alphabet k token :
  length token = (5 * k)%nat ->
  length (rand_b32_str token) = (8 * k)%nat
  /\ Forall b32_small (rand_b32_str token).
Proof. apply rand_b32_str_groups. Qed.

Lemma rand_b32_str_alphabet_witness :
  length (rand_b32_str (b "hello")) = 8%nat
  /\ Forall b32_small (rand_b32_str (b "hello")).
Proof. apply (rand_b32_str_alphabet 1 (b "hello")). reflexivity. Defined.

(** X6.  Two tokens of the same whole number of groups have the same
    string only if they are the same token: the name of a text upload
    loses nothing of the random bytes. *)
Theorem rand_b32_str_inj k token token' :
  length token = (5 * k)%nat -> length token' = (5 * k)%nat ->
  rand_b32_str token = rand_b32_str token' -> token = token'.
Proof.
  revert token token'. induction k as [|k IH]; intros token token' Hlen Hlen' Heq.
  - by destruct token, token'.
  - destruct token as [|b0 [|b1 [|b2 [|b3 [|b4 token]]]]]; simpl in Hlen; try lia.
    destruct token' as [|c0 [|c1 [|c2 [|c3 [|c4 token']]]]]; simpl in Hlen'; try lia.
    unfold rand_b32_str in *. cbn [b32encode] in Heq. rewrite !fmap_app in Heq.
    apply app_inj_1 in Heq as [Hgroup Hrest];
      [|unfold b32_group; by rewrite !length_fmap].
    apply b32_group_inj in Hgroup; [|apply int_from_bytes_5_bound..].
    apply int_from_bytes_5_inj in Hgroup. injection Hgroup as -> -> -> -> ->.
    do 5 f_equal. apply IH; [lia|lia|done].
Qed.

Lemma rand_b32_str_inj_witness :
  length (b "hello") = 5%nat
  /\ rand_b32_str (b "hello") = u "nbswy3dp"
  /\ b "hello" = b "hello".
Proof.
  split_and!; [reflexivity|reflexivity|].
  apply (rand_b32_str_inj 1 (b "hello") (b "hello")); reflexivity.
Defined.

(** ** Saving the uploads *)

Lemma save_upload_whole p filename st c :
  bufs st !! buf p = Some (file_of c) ->
  save_upload p filename st
  = Ok (Uploads (bufs st) (saved st ++ [(FILEDIR ++ u "/" ++ filename, c)])
                (closed st ++ [buf p]) (drawn st)).
Proof.
  intros Hbuf. unfold save_upload. rewrite Hbuf. cbn [or_raise mbind result_bind].
  unfold seek, read, file_of. change (Z.of_nat 0 + 0)%Z with 0%Z.
  cbn [Z.ltb Z.compare Z.to_nat mbind result_bind data pos drop].
  rewrite Nat.max_0_l. by rewrite list_insert_id.
Qed.

Lemma save_parts_kept rand l st :
  Forall (fun pc => bufs st !! buf pc.1 = Some (file_of pc.2)) l ->
  exists d,
    save_parts rand (fst <$> l) st
    = (Uploads (bufs st)
               (saved st ++ (snd <$> kept_uploads rand (drawn st) l))
               (closed st ++ (fst <$> kept_uploads rand (drawn st) l)) d,
       None).
Proof.
  revert st. induction l as [|[p c] l IH]; intros st Hl.
  - exists (drawn st). destruct st. simpl. by rewrite !app_nil_r.
  - apply Forall_cons in Hl as [Hp Hl]. cbn [fst snd] in Hp.
    rewrite fmap_cons. cbn [save_parts kept_uploads fst]. unfold save_part.
    destruct (decide (form_name p = u "files")) as [_|_].
    { destruct (decide (filename p = [])) as [_|_]; [by apply IH|].
      rewrite (save_upload_whole _ _ _ c) by done.
      destruct (IH (Uploads (bufs st)
                      (saved st ++ [(FILEDIR ++ u "/" ++ filename p, c)])
                      (closed st ++ [buf p]) (drawn st)) Hl) as [d ->].
      exists d. cbn [bufs saved closed drawn]. by rewrite !fmap_cons, <-!app_assoc. }
    destruct (decide (form_name p = u "text")) as [_|_]; [|by apply IH].
    rewrite Hp. cbn [or_raise mbind result_bind].
    assert (tell (file_of c) = 0%nat <-> c = []) as Htell
      by (unfold tell, file_of; simpl; by rewrite length_zero_iff_nil).
    destruct (decide (tell (file_of c) = 0%nat)) as [Hz|Hz].
    { rewrite decide_True by by apply Htell. by apply IH. }
    rewrite decide_False by (by rewrite <-Htell).
    rewrite (save_upload_whole _ _ _ c) by done.
    cbn [bufs saved closed drawn].
    destruct (IH (Uploads (bufs st)
                    (saved st ++ [(FILEDIR ++ u "/" ++ u "text_"
                        ++ rand_b32_str (rand (drawn st)) ++ u ".txt", c)])
                    (closed st ++ [buf p]) (S (drawn st))) Hl) as [d ->].
    exists d. cbn [bufs saved closed drawn]. by rewrite !fmap_cons, <-!app_assoc.
Qed.

(** In every list that the decoder returns, every entry refers to a file
    of the store, with the cursor at the end of the file. *)
Lemma parse_multipart_buffers fuel content_type body parts fs :
  parse_multipart fuel content_type body = Some (Ok (parts, fs)) ->
  Forall (fun e => exists c, fs !! buf e = Some (file_of c)) parts.
Proof.
  unfold parse_multipart.
  destruct (delimiters content_type) as [[separator terminator]|]; [|done].
  intros Hrun.
  refine (run_invariant separator terminator files_ok
    (fun o => match o with
              | Ok (parts, fs) =>
                Forall (fun e => exists c, fs !! buf e = Some (file_of c)) parts
              | Raise _ => True
              end) _ _ _ _ _ _ Hrun).
  - intros st st' Hst Hs.
    pose proof (step_files_ok separator terminator st Hst) as H. by rewrite Hs in H.
  - intros st [[ps fs']|] Hst Hs; [|done].
    pose proof (step_files_ok separator terminator st Hst) as H. rewrite Hs in H.
    eapply Forall_impl; [exact H|]. intros e ([d p] & Hf & Hc).
    exists d. rewrite Hf. unfold cursor_at_end, tell in Hc. simpl in Hc. by subst.
  - by split_and!.
Qed.

(** X7.  Whatever the body, when the decoder returns, [do_POST] answers
    with the redirect to the home page and has written and closed exactly
    what its policy keeps of the parts, each with the whole content of its
    buffer: a part named files under its file name unless that is empty,
    a part named text under a fresh name unless its content is empty, and
    no other part.  The buffers of the parts it does not keep are left
    open. *)
Theorem do_POST_policy fuel rand content_type body parts fs :
  parse_multipart fuel content_type body = Some (Ok (parts, fs)) ->
  exists contents st,
    Forall2 (fun e c => content fs e = Some c) parts contents
    /\ do_POST fuel rand (u "/upload") content_type body
       = Some (send_redirect (u "/"), st)
    /\ saved st = snd <$> kept_uploads rand 0%nat (zip parts contents)
    /\ closed st = fst <$> kept_uploads rand 0%nat (zip parts contents).
Proof.
  intros Hparse. pose proof (parse_multipart_buffers _ _ _ _ _ Hparse) as Hbufs.
  assert (exists contents,
            Forall2 (fun e c => fs !! buf e = Some (file_of c)) parts contents)
    as [contents Hcs].
  { clear Hparse. induction Hbufs as [|e parts [c Hc] _ [cs IH]]; [by exists []|].
    exists (c :: cs). by constructor. }
  destruct (save_parts_kept rand (zip parts contents) (Uploads fs [] [] 0%nat))
    as [d Hsave].
  { clear Hparse Hbufs. induction Hcs; [done|]. by constructor. }
  rewrite fst_zip in Hsave by (by erewrite Forall2_length).
  eexists contents, _. split_and!.
  - eapply Forall2_impl; [exact Hcs|]. intros e c He. unfold content. by rewrite He.
  - unfold do_POST. rewrite decide_False by (by intros []). rewrite Hparse, Hsave.
    done.
  - done.
  - done.
Qed.

Lemma do_POST_policy_witness :
  exists st,
    do_POST 30 (fun _ => b "hello") (u "/upload")
      (u "multipart/form-data; boundary=XYZ")
      (b "--XYZ\r\nContent-Disposition: form-data; name=\x22files\x22; filename=\x22\x22\r\n\r\n\r\n--XYZ\r\nContent-Disposition: form-data; name=\x22submit\x22\r\n\r\nUpload\r\n--XYZ\r\nContent-Disposition: form-data; name=\x22text\x22\r\n\r\nsome text\r\n--XYZ--\r\n")
    = Some (send_redirect (u "/"), st)
    /\ saved st = [(u "tmp/text_nbswy3dp.txt", b "some text")]
    /\ closed st = [2%nat].
Proof.
  destruct (do_POST_policy 30 (fun _ => b "hello")
              (u "multipart/form-data; boundary=XYZ")
              (b "--XYZ\r\nContent-Disposition: form-data; name=\x22files\x22; filename=\x22\x22\r\n\r\n\r\n--XYZ\r\nContent-Disposition: form-data; name=\x22submit\x22\r\n\r\nUpload\r\n--XYZ\r\nContent-Disposition: form-data; name=\x22text\x22\r\n\r\nsome text\r\n--XYZ--\r\n")
              [Part (u "files") [] 0; Part (u "submit") [] 1; Part (u "text") [] 2]
              [file_of (b "\r\n"); file_of (b "Upload\r\n"); file_of (b "some text")])
    as (contents & st & Hcs & Hpost & Hsaved & Hclosed);
    [vm_compute; reflexivity|].
  exists st. split; [exact Hpost|].
  apply Forall2_cons_inv_l in Hcs as (c0 & cs & [= <-] & Hcs & ->).
  apply Forall2_cons_inv_l in Hcs as (c1 & cs' & [= <-] & Hcs & ->).
  apply Forall2_cons_inv_l in Hcs as (c2 & cs'' & [= <-] & ->%Forall2_nil_inv_l & ->).
  split; [exact Hsaved|exact Hclosed].
Defined.

Lemma zip_buffers (es : list part) (cs : list bytes) :
  buf <$> es = seq 0 (length es) -> length cs = length es ->
  Forall (fun pc => (file_of <$> cs) !! buf pc.1 = Some (file_of pc.2)) (zip es cs).
Proof.
  intros Hbufs Hlen. apply Forall_lookup. intros i [e c] Hi.
  apply lookup_zip_with_Some in Hi as (e' & c' & [= <- <-] & He & Hc).
  cbn [fst snd]. assert (buf e = i) as ->.
  { assert ((buf <$> es) !! i = Some (buf e)) as Hb by by rewrite list_lookup_fmap, He.
    rewrite Hbufs in Hb. apply lookup_seq in Hb. lia. }
  by rewrite list_lookup_fmap, Hc.
Qed.

(** The uploads of a well-formed body: the policy of [do_POST] on the
    names of the parts and on what the decoder leaves of their payloads. *)
Lemma do_POST_wire rand content_type boundary bb ps q :
  get_header_opt (u "boundary") content_type = Ok boundary ->
  utf8_encode boundary = Some bb ->
  LF ∉ bb ->
  forallb (part_ok (separator_of bb) (terminator_of bb)) (ps ++ [q]) = true ->
  exists es,
    Forall2 entry_for (ps ++ [q]) es
    /\ buf <$> es = seq 0 (length (ps ++ [q]))
    /\ exists n, forall fuel, (n <= fuel)%nat ->
         exists st,
           do_POST fuel rand (u "/upload") content_type
             (wire (separator_of bb) (terminator_of bb) ps q)
           = Some (send_redirect (u "/"), st)
           /\ saved st
              = snd <$> kept_uploads rand 0
                  (zip es (((fun p => payload p ++ CRLF) <$> ps) ++ [payload q]))
           /\ closed st
              = fst <$> kept_uploads rand 0
                  (zip es (((fun p => payload p ++ CRLF) <$> ps) ++ [payload q])).
Proof.
  intros Hb Hbb Hlf Hok. rewrite forallb_app in Hok.
  apply andb_prop in Hok as [Hps Hq]. simpl in Hq. rewrite andb_true_r in Hq.
  apply andb_prop in Hq as [Hq Hfree].
  destruct (decode_wire_raw content_type boundary bb ps q (payload q ++ CRLF)
              Hb Hbb Hlf Hps Hq (complete_crlf _) Hfree)
    as (es & Hes & Hbufs & [n Hret]).
  rewrite decide_True, take_crlf in Hret by (rewrite length_app; simpl; lia).
  exists es. split_and!; [done|done|]. exists n. intros fuel Hfuel.
  set (cs := ((fun p => payload p ++ CRLF) <$> ps) ++ [payload q]).
  assert (length cs = length es) as Hlen.
  { rewrite <-(Forall2_length _ _ _ Hes). unfold cs.
    by rewrite !length_app, length_fmap. }
  assert (((fun p => file_of (payload p ++ CRLF)) <$> ps) ++ [file_of (payload q)]
          = file_of <$> cs) as Hfiles.
  { unfold cs. by rewrite fmap_app, <-list_fmap_compose. }
  rewrite Hfiles in Hret.
  destruct (save_parts_kept rand (zip es cs) (Uploads (file_of <$> cs) [] [] 0%nat))
    as [d Hsave].
  { apply zip_buffers; [|done]. by rewrite Hbufs, (Forall2_length _ _ _ Hes). }
  rewrite fst_zip in Hsave by lia.
  eexists. unfold do_POST, wire. rewrite decide_False by (by intros []).
  rewrite (Hret fuel Hfuel), Hsave. done.
Qed.

Lemma kept_files rand i ps es fnames rest :
  Forall2 entry_for ps es ->
  Forall2 (fun p fn => named p (u "files") fn /\ fn <> []) ps fnames ->
  snd <$> kept_uploads rand i (zip es ((fun p => payload p ++ CRLF) <$> ps) ++ rest)
  = zip_with (fun p fn => (FILEDIR ++ u "/" ++ fn, payload p ++ CRLF)) ps fnames
      ++ (snd <$> kept_uploads rand i rest).
Proof.
  intros Hes. revert fnames. induction Hes as [|p e ps es He Hes IH];
    intros fnames Hnames.
  - by apply Forall2_nil_inv_l in Hnames as ->.
  - apply Forall2_cons_inv_l in Hnames as (fn & fnames' & [Hfn Hne] & Hnames & ->).
    unfold entry_for, named in *. rewrite Hfn in He. injection He as Hn Hf.
    rewrite fmap_cons. cbn [zip zip_with app kept_uploads].
    rewrite <-Hn, decide_True by done. rewrite <-Hf, decide_False by done.
    rewrite fmap_cons. cbn [snd]. f_equal. by apply IH.
Qed.

Lemma kept_others rand i ps es (cs : list bytes) rest :
  Forall2 entry_for ps es ->
  Forall (fun p => exists name fname,
            named p name fname /\ name <> u "files" /\ name <> u "text") ps ->
  length cs = length ps ->
  kept_uploads rand i (zip es cs ++ rest) = kept_uploads rand i rest.
Proof.
  intros Hes. revert cs. induction Hes as [|p e ps es He Hes IH]; intros cs Hps Hlen.
  - done.
  - destruct cs as [|c cs]; [done|].
    apply Forall_cons in Hps as [(name & fname & Hn & Hfiles & Htext) Hps].
    unfold entry_for, named in *. rewrite Hn in He. injection He as Hn' Hf'.
    cbn [zip zip_with app kept_uploads].
    rewrite <-Hn', !decide_False by done. apply IH; [done|]. simpl in Hlen. lia.
Qed.

(** X8.  An upload as the form of the home page sends it: parts named
    files with their file names, then parts under other names (the submit
    button), and the text area last.  [do_POST] answers with the redirect
    and has written every file under its name with its payload and two
    more bytes, the CRLF before the separator that the decoder leaves in
    the buffer, and then the text, as it is, if there is any. *)
Theorem upload_form rand content_type boundary bb fileparts fnames others q tname :
  get_header_opt (u "boundary") content_type = Ok boundary ->
  utf8_encode boundary = Some bb ->
  LF ∉ bb ->
  forallb (part_ok (separator_of bb) (terminator_of bb))
          ((fileparts ++ others) ++ [q]) = true ->
  Forall2 (fun p fn => named p (u "files") fn /\ fn <> []) fileparts fnames ->
  Forall (fun p => exists name fname,
            named p name fname /\ name <> u "files" /\ name <> u "text") others ->
  named q (u "text") tname ->
  exists n, forall fuel, (n <= fuel)%nat ->
    exists st,
      do_POST fuel rand (u "/upload") content_type
        (wire (separator_of bb) (terminator_of bb) (fileparts ++ others) q)
      = Some (send_redirect (u "/"), st)
      /\ saved st
         = zip_with (fun p fn => (FILEDIR ++ u "/" ++ fn, payload p ++ CRLF))
             fileparts fnames
           ++ if decide (payload q = []) then []
              else [(FILEDIR ++ u "/" ++ u "text_" ++ rand_b32_str (rand 0%nat)
                       ++ u ".txt", payload q)].
Proof.
  intros Hb Hbb Hlf Hok Hfiles Hothers Htext.
  destruct (do_POST_wire rand content_type boundary bb (fileparts ++ others) q
              Hb Hbb Hlf Hok) as (es & Hes & _ & n & Hn).
  exists n. intros fuel Hfuel. destruct (Hn fuel Hfuel) as (st & Hpost & Hsaved & _).
  exists st. split; [done|]. rewrite Hsaved. clear Hn Hpost Hsaved.
  apply Forall2_app_inv_l in Hes as (es' & eq & Hes' & Heq & ->).
  apply Forall2_app_inv_l in Hes' as (esf & eso & Hesf & Heso & ->).
  apply Forall2_cons_inv_l in Heq as (e & ? & He & ->%Forall2_nil_inv_l & ->).
  rewrite fmap_app, <-!app_assoc.
  rewrite zip_with_app by (by rewrite length_fmap, (Forall2_length _ _ _ Hesf)).
  rewrite (kept_files _ _ _ _ fnames) by done. f_equal.
  rewrite zip_with_app by (by rewrite length_fmap, (Forall2_length _ _ _ Heso)).
  rewrite (kept_others _ _ others) by (done || by rewrite length_fmap).
  unfold entry_for, named in *. rewrite Htext in He. injection He as Hn' Hf'.
  cbn [zip zip_with kept_uploads]. rewrite <-Hn'.
  rewrite decide_False, decide_True by done.
  by destruct (decide (payload q = [])).
Qed.

Lemma upload_form_witness :
  exists n, forall fuel, (n <= fuel)%nat ->
    exists st,
      do_POST fuel (fun _ => b "hello") (u "/upload")
        (u "multipart/form-data; boundary=XYZ")
        (b "--XYZ\r\nContent-Disposition: form-data; name=\x22files\x22; filename=\x22a.bin\x22\r\nContent-Type: application/octet-stream\r\n\r\n\x00\x01\r\n--XYZ\r\nContent-Disposition: form-data; name=\x22submit\x22\r\n\r\nUpload\r\n--XYZ\r\nContent-Disposition: form-data; name=\x22text\x22\r\n\r\nsome text\r\n--XYZ--\r\n")
      = Some (send_redirect (u "/"), st)
      /\ saved st
         = [(u "tmp/a.bin", b "\x00\x01\r\n");
            (u "tmp/text_nbswy3dp.txt", b "some text")].
Proof.
  apply (upload_form (fun _ => b "hello") (u "multipart/form-data; boundary=XYZ")
           (u "XYZ") (b "XYZ")
           [WirePart [] (b "Content-Disposition: form-data; name=\x22files\x22; filename=\x22a.bin\x22")
                     [b "Content-Type: application/octet-stream"] (b "\x00\x01")]
           [u "a.bin"]
           [WirePart [] (b "Content-Disposition: form-data; name=\x22submit\x22") []
                     (b "Upload")]
           (WirePart [] (b "Content-Disposition: form-data; name=\x22text\x22") []
                     (b "some text")) []);
    [reflexivity|reflexivity|by_decide|reflexivity| | |reflexivity].
  - repeat constructor; discriminate.
  - repeat constructor. exists (u "submit"), []. split_and!; [reflexivity|discriminate..].
Defined.

(** X9.  When the decoder raises, nothing has been written: for a body
    whose last part has fewer than two bytes before the terminator line,
    [do_POST] is left by the [OSError] of the decoder and has saved none
    of the parts, however many complete files come before the last
    part. *)
Theorem failed_upload_saves_nothing rand content_type boundary bb ps q raw :
  get_header_opt (u "boundary") content_type = Ok boundary ->
  utf8_encode boundary = Some bb ->
  LF ∉ bb ->
  forallb (part_ok (separator_of bb) (terminator_of bb)) ps = true ->
  headers_ok q = true ->
  complete raw = true ->
  delimiter_free (separator_of bb) (terminator_of bb) raw = true ->
  (length raw < 2)%nat ->
  exists n, forall fuel, (n <= fuel)%nat ->
    do_POST fuel rand (u "/upload") content_type
      (wire_raw (separator_of bb) (terminator_of bb) ps q raw)
    = Some (Crashed (Exn OSError), Uploads [] [] [] 0%nat).
Proof.
  intros Hb Hbb Hlf Hps Hq Hc Hfree Hlen.
  destruct (decode_wire_raw content_type boundary bb ps q raw
              Hb Hbb Hlf Hps Hq Hc Hfree) as (es & _ & _ & [n Hret]).
  rewrite decide_False in Hret by lia.
  exists n. intros fuel Hfuel. unfold do_POST.
  rewrite decide_False by (by intros []). by rewrite (Hret fuel Hfuel).
Qed.

Lemma failed_upload_saves_nothing_witness :
  exists n, forall fuel, (n <= fuel)%nat ->
    do_POST fuel (fun _ => b "hello") (u "/upload")
      (u "multipart/form-data; boundary=XYZ")
      (b "--XYZ\r\nContent-Disposition: form-data; name=\x22files\x22; filename=\x22a.bin\x22\r\n\r\n\x00\x01\r\n--XYZ\r\nContent-Disposition: form-data; name=\x22text\x22\r\n\r\n--XYZ--\r\n")
    = Some (Crashed (Exn OSError), Uploads [] [] [] 0%nat).
Proof.
  apply (failed_upload_saves_nothing (fun _ => b "hello")
           (u "multipart/form-data; boundary=XYZ") (u "XYZ") (b "XYZ")
           [WirePart [] (b "Content-Disposition: form-data; name=\x22files\x22; filename=\x22a.bin\x22")
                     [] (b "\x00\x01")]
           (WirePart [] (b "Content-Disposition: form-data; name=\x22text\x22") [] [])
           []); try reflexivity; [by_decide|simpl; lia].
Defined.

(** X10.  A request whose body ends before the terminator line is never
    answered: on an ASCII body without that line [do_POST] does not come
    to an end, whatever the number of turns, and writes nothing. *)
Theorem do_POST_never_answers rand content_type separator terminator body :
  delimiters content_type = Ok (separator, terminator) ->
  terminator ∉ readlines body ->
  Forall ascii_byte body ->
  never_answered rand (u "/upload") content_type body.
Proof.
  intros Hd Hterm Hascii fuel. unfold do_POST, parse_multipart.
  rewrite decide_False by (by intros []). rewrite Hd.
  rewrite run_ascii; [done| |done|done].
  unfold delimiters in Hd.
  destruct (get_header_opt _ _) as [boundary|]; [|done].
  cbn [mbind result_bind] in Hd. rewrite !utf8_encode_app in Hd.
  destruct (utf8_encode boundary) as [bb|]; [|done]. by simplify_eq/=.
Qed.

Lemma do_POST_never_answers_witness :
  never_answered (fun _ => b "hello") (u "/upload")
    (u "multipart/form-data; boundary=XYZ")
    (b "--XYZ\r\nContent-Disposition: form-data; name=\x22text\x22\r\n\r\nhello\r\n").
Proof.
  apply (do_POST_never_answers (fun _ => b "hello")
           (u "multipart/form-data; boundary=XYZ") (b "--XYZ\r\n") (b "--XYZ--\r\n"));
    [reflexivity|by_decide|by_decide].
Defined.

(** ** Serving the uploads *)

Section Searching.
Context {A : Type} `{EqDecision A}.
Implicit Types (sep s : list A).

Lemma find_prefix sep s : find sep (sep ++ s) = Some 0%nat.
Proof.
  pose proof (strip_prefix_app_same sep s) as H.
  destruct (sep ++ s); cbn [find]; by rewrite H.
Qed.

Lemma find_None_head c sep s : c ∉ s -> find (c :: sep) s = None.
Proof.
  induction s as [|x s IH]; [done|]. intros [Hx Hs]%not_elem_of_cons.
  cbn [find strip_prefix]. rewrite decide_False by done. by rewrite IH.
Qed.

Lemma find_middle sep x y : is_Some (find sep (x ++ sep ++ y)).
Proof.
  induction x as [|c x [i IH]].
  - rewrite app_nil_l, find_prefix. eauto.
  - cbn [app find]. destruct (strip_prefix sep (c :: x ++ sep ++ y)); [eauto|].
    rewrite IH. simpl. eauto.
Qed.

End Searching.

Lemma split_fuel_nonempty fuel (sep s : str) : split_fuel fuel sep s <> [].
Proof. destruct fuel; simpl; [done|]. by destruct (find sep s). Qed.

Lemma split_fuel_whole fuel (sep s : str) : find sep s = None -> split_fuel fuel sep s = [s].
Proof. intros Hf. destruct fuel; simpl; [done|]. by rewrite Hf. Qed.

Lemma split_two (sep name : str) :
  sep <> [] -> find sep name = None -> split sep (sep ++ name) = [[]; name].
Proof.
  intros Hsep Hname. unfold split. rewrite length_app.
  destruct (length sep) as [|n] eqn:Hlen; [by destruct sep|].
  cbn [Nat.add split_fuel]. rewrite find_prefix, Hlen. cbn [Nat.add take].
  replace (drop (S n) (sep ++ name)) with name
    by (by rewrite <-Hlen, drop_app_length).
  by rewrite split_fuel_whole.
Qed.

Lemma split_three (sep x y : str) :
  sep <> [] -> (3 <= length (split sep (sep ++ x ++ sep ++ y)))%nat.
Proof.
  intros Hsep. unfold split. rewrite !length_app.
  destruct (length sep) as [|n] eqn:Hlen; [by destruct sep|].
  cbn [Nat.add split_fuel]. rewrite find_prefix, Hlen. cbn [Nat.add take].
  replace (drop (S n) (sep ++ x ++ sep ++ y)) with (x ++ sep ++ y)
    by (by rewrite <-Hlen, drop_app_length).
  rewrite !Nat.add_succ_r. cbn [split_fuel].
  destruct (find_middle sep x y) as [i ->]. cbn [length].
  pose proof (split_fuel_nonempty (n + (length x + (n + length y))) sep
    (drop (i + length sep) (x ++ sep ++ y))) as Hne.
  destruct (split_fuel _ _ _); [done|]. simpl. lia.
Qed.

Lemma take_while_all {A} (f : A -> bool) (l : list A) :
  forallb f l = true -> take_while f l = l.
Proof.
  intros Hl. rewrite <-(app_nil_r l) at 1. rewrite take_while_app_all by done.
  by rewrite app_nil_r.
Qed.

Lemma before_absent c (s : str) : c ∉ s -> before c s = s.
Proof.
  intros Hc. apply take_while_all. induction s as [|x s IH]; [done|].
  apply not_elem_of_cons in Hc as [Hx Hs]. simpl. rewrite IH by done.
  destruct (N.eqb_spec x c); [by subst|done].
Qed.

Lemma before_cut c (s t : str) : c ∉ s -> before c (s ++ c :: t) = s.
Proof.
  intros Hc. unfold before. rewrite take_while_app_all.
  - simpl. by rewrite N.eqb_refl, app_nil_r.
  - induction s as [|x s IH]; [done|].
    apply not_elem_of_cons in Hc as [Hx Hs]. simpl. rewrite IH by done.
    destruct (N.eqb_spec x c); [by subst|done].
Qed.

Lemma take_drop_while {A} (f : A -> bool) (l : list A) :
  take_while f l ++ drop_while f l = l.
Proof. induction l as [|x l IH]; simpl; [done|]. destruct (f x); simpl; by f_equal. Qed.

Lemma filter_all {A} (f : A -> bool) (l : list A) :
  forallb f l = true -> List.filter f l = l.
Proof.
  induction l as [|x l IH]; simpl; [done|]. intros [-> Hl]%andb_prop.
  by rewrite IH.
Qed.

Lemma forallb_elem_of {A} (f : A -> bool) (l : list A) (x : A) :
  forallb f l = true -> x ∈ l -> f x = true.
Proof.
  intros Hl Hin. apply (proj1 (forallb_forall f l) Hl). by apply list_elem_of_In.
Qed.

Lemma url_plain_absent (s : str) c :
  forallb url_plain s = true -> c ∈ [35; 63; 59; 37; 9; 10; 13] -> c ∉ s.
Proof.
  intros Hs Hc Hin. apply (forallb_elem_of _ _ c) in Hs; [|done].
  unfold url_plain in Hs. by rewrite bool_decide_eq_true_2 in Hs.
Qed.

Lemma url_plain_kept (s : str) :
  forallb url_plain s = true ->
  List.filter (fun c => negb ((c =? 9) || (c =? 13) || (c =? 10))) s = s.
Proof.
  intros Hs. apply filter_all. apply forallb_forall. intros c Hc%list_elem_of_In.
  apply (forallb_elem_of _ _ c) in Hs; [|done].
  unfold url_plain in Hs. apply negb_true_iff, bool_decide_eq_false in Hs.
  apply negb_true_iff.
  destruct (N.eqb_spec c 9) as [->|]; [exfalso; apply Hs; set_solver|].
  destruct (N.eqb_spec c 13) as [->|]; [exfalso; apply Hs; set_solver|].
  destruct (N.eqb_spec c 10) as [->|]; [exfalso; apply Hs; set_solver|]. done.
Qed.

Lemma splitparams_plain (url : str) : 59 ∉ url -> splitparams url = url.
Proof.
  intros Hurl. unfold splitparams.
  pose proof (take_drop_while (fun x => negb (x =? 47)) (reverse url)) as Hsplit.
  fold (before 47 (reverse url)) in Hsplit.
  apply (f_equal reverse) in Hsplit. rewrite reverse_app, reverse_involutive in Hsplit.
  revert Hsplit. generalize (reverse (before 47 (reverse url))) as segment.
  generalize (reverse (drop_while (fun x => negb (x =? 47)) (reverse url))) as dir.
  intros dir segment <-. rewrite length_app, Nat.add_sub, take_app_length.
  rewrite before_absent; [done|].
  intros Hin. apply Hurl, elem_of_app. by right.
Qed.

(** A path of plain characters is read as it is. *)
Lemma request_path_plain (path : str) :
  forallb url_plain path = true -> unquote (urlparse_path path) = path.
Proof.
  intros Hplain. unfold urlparse_path. rewrite url_plain_kept by done.
  rewrite (before_absent 35 path) by (apply url_plain_absent; [done|set_solver]).
  rewrite (before_absent 63 path) by (apply url_plain_absent; [done|set_solver]).
  rewrite splitparams_plain by (apply url_plain_absent; [done|set_solver]).
  unfold unquote. rewrite decide_False; [done|].
  apply url_plain_absent; [done|set_solver].
Qed.

Lemma listing_elem_of path entries fd :
  fd ∈ get_uploaded_file_data path entries <->
  exists entry, entry ∈ entries /\ listed entry = true
    /\ fd = FileData (entry_path path (entry_name entry)) (entry_name entry)
                     (entry_size entry).
Proof.
  induction entries as [|e entries IH]; cbn [get_uploaded_file_data].
  - split; [by intros ?%elem_of_nil|]. by intros (? & ?%elem_of_nil & _).
  - fold (listed e). destruct (listed e) eqn:He.
    + rewrite elem_of_cons, IH. split.
      * intros [->|(entry & Hin & Hl & ->)]; [exists e|exists entry];
          split_and!; try done; [left|by right].
      * intros (entry & [->|Hin]%elem_of_cons & Hl & ->); [by left|right; eauto].
    + rewrite IH. split.
      * intros (entry & Hin & Hl & ->). exists entry. split_and!; try done. by right.
      * intros (entry & [->|Hin]%elem_of_cons & Hl & ->); [congruence|eauto].
Qed.

Lemma find_upload_Some basename l fd :
  find_upload basename l = Some fd -> fd ∈ l /\ fd_filename fd = basename.
Proof.
  induction l as [|x l IH]; [done|]. cbn [find_upload]. case_decide as Hx.
  - intros [= <-]. split; [left|done].
  - intros [Hin Hn]%IH. split; [by right|done].
Qed.

Lemma find_upload_listed path entries entry :
  NoDup (entry_name <$> entries) -> entry ∈ entries -> listed entry = true ->
  find_upload (entry_name entry) (get_uploaded_file_data path entries)
  = Some (FileData (entry_path path (entry_name entry)) (entry_name entry)
                   (entry_size entry)).
Proof.
  induction entries as [|e entries IH]; [by intros _ ?%elem_of_nil|].
  rewrite fmap_cons. intros [Hnotin Hnodup]%NoDup_cons [->|Hin]%elem_of_cons Hl;
    cbn [get_uploaded_file_data]; fold (listed e).
  - rewrite Hl. cbn [find_upload fd_filename]. by rewrite decide_True.
  - destruct (listed e); [|by apply IH].
    cbn [find_upload fd_filename]. rewrite decide_False; [by apply IH|].
    intros Heq. apply Hnotin. rewrite <-Heq. by apply list_elem_of_fmap_2.
Qed.

(** X11.  Whatever the path of the request, the only files that [do_GET]
    sends are regular files of the directory of the uploads whose name
    does not begin with a dot: the file sent is the entry of that name in
    the directory itself, with its size, never a hidden file, a
    directory, or a file elsewhere. *)
Theorem do_GET_sends_listed guess_type path entries ctype len p :
  do_GET guess_type path entries = SendFile ctype len p ->
  exists entry,
    entry ∈ entries
    /\ entry_is_file entry = true
    /\ startswith_str (entry_name entry) (u ".") = false
    /\ p = u "tmp/" ++ entry_name entry
    /\ len = entry_size entry.
Proof.
  unfold do_GET. case_decide.
  { unfold send_homepage, send_bytes. by destruct (render_homepage_html _). }
  destruct (negb _); [done|].
  destruct (split _ _) as [|? [|basename [|]]]; try done.
  destruct (find_upload _ _) as [fd|] eqn:Hfind; [|done].
  apply find_upload_Some in Hfind as [Hin _].
  apply listing_elem_of in Hin as (entry & Hin & Hl & ->).
  unfold send_filedata. intros [= _ <- <-]. exists entry.
  apply andb_prop in Hl as [Hdot%negb_true_iff Hfile]. by split_and!.
Qed.

Lemma do_GET_sends_listed_witness :
  exists entry,
    entry ∈ [DirEntry (u ".hidden") true 3; DirEntry (u "a.txt") true 5]
    /\ entry_is_file entry = true
    /\ startswith_str (entry_name entry) (u ".") = false
    /\ u "tmp/a.txt" = u "tmp/" ++ entry_name entry
    /\ 5 = entry_size entry.
Proof.
  apply (do_GET_sends_listed (fun _ => None) (u "/upload/a%2etxt?x=1")
           [DirEntry (u ".hidden") true 3; DirEntry (u "a.txt") true 5]
           (u "application/octet-stream")).
  reflexivity.
Defined.

(** X12.  A listed file whose name has none of the characters
    [# ? ; % /], no tab and no end of line is sent for the path
    [/upload/] followed by its name, with its size as the length and
    with the type guessed from its name. *)
Theorem do_GET_plain_name guess_type entries entry :
  NoDup (entry_name <$> entries) ->
  entry ∈ entries ->
  listed entry = true ->
  forallb url_plain (entry_name entry) = true ->
  47 ∉ entry_name entry ->
  do_GET guess_type (u "/upload/" ++ entry_name entry) entries
  = send_filedata guess_type
      (FileData (u "tmp/" ++ entry_name entry) (entry_name entry)
                (entry_size entry)).
Proof.
  intros Hnodup Hin Hl Hplain Hslash. unfold do_GET.
  rewrite decide_False by done.
  assert (startswith_str (u "/upload/" ++ entry_name entry) (u "/upload/") = true)
    as -> by (unfold startswith_str; by rewrite strip_prefix_app_same).
  cbn [negb]. rewrite request_path_plain by (by rewrite forallb_app, Hplain).
  rewrite split_two by (done || by apply find_None_head).
  by rewrite (find_upload_listed FILEDIR) by done.
Qed.

Lemma do_GET_plain_name_witness :
  do_GET (fun _ => Some (u "text/plain")) (u "/upload/a b.txt")
    [DirEntry (u ".hidden") true 3; DirEntry (u "a b.txt") true 5]
  = SendFile (u "text/plain") 5 (u "tmp/a b.txt").
Proof.
  apply (do_GET_plain_name (fun _ => Some (u "text/plain"))
           [DirEntry (u ".hidden") true 3; DirEntry (u "a b.txt") true 5]
           (DirEntry (u "a b.txt") true 5));
    [by_decide| |reflexivity|reflexivity|by_decide].
  apply elem_of_cons; right. apply elem_of_cons; by left.
Defined.

(** X13.  A path in which [/upload/] comes a second time makes the
    unpacking of the split fail: the handler is left by a [ValueError]
    and sends nothing, whatever the directory holds. *)
Theorem do_GET_second_upload guess_type entries x y :
  forallb url_plain (x ++ y) = true ->
  do_GET guess_type (u "/upload/" ++ x ++ u "/upload/" ++ y) entries
  = Crashed (Exn ValueError).
Proof.
  intros Hplain. unfold do_GET. rewrite decide_False by done.
  assert (startswith_str (u "/upload/" ++ x ++ u "/upload/" ++ y) (u "/upload/") = true)
    as -> by (unfold startswith_str; by rewrite strip_prefix_app_same).
  cbn [negb]. rewrite request_path_plain.
  - pose proof (split_three (u "/upload/") x y ltac:(done)) as Hlen.
    by destruct (split _ _) as [|? [|? [|]]]; simpl in Hlen; try lia.
  - rewrite forallb_app in Hplain. apply andb_prop in Hplain as [Hx Hy].
    by rewrite !forallb_app, Hx, Hy.
Qed.

Lemma do_GET_second_upload_witness :
  do_GET (fun _ => None) (u "/upload/a/upload/b") [DirEntry (u "a") true 1]
  = Crashed (Exn ValueError).
Proof.
  apply (do_GET_second_upload (fun _ => None) [DirEntry (u "a") true 1] (u "a") (u "b")).
  reflexivity.
Defined.

Lemma startswith_str_app (s p r : str) :
  startswith_str s p = true -> startswith_str (s ++ r) p = true.
Proof.
  unfold startswith_str. destruct (strip_prefix p s) as [t|] eqn:Hs; [|done].
  apply strip_prefix_Some in Hs as ->. by rewrite <-app_assoc, strip_prefix_app_same.
Qed.

Lemma forallb_absent (c : N) (s : str) :
  c ∉ s -> forallb (fun x => negb (x =? c)) s = true.
Proof.
  induction s as [|x s IH]; [done|]. intros [Hx Hs]%not_elem_of_cons. simpl.
  rewrite IH by done. by destruct (N.eqb_spec x c); [subst|].
Qed.

(** X14.  Under [/upload/] a query and a fragment are not looked at: what
    follows the first question mark or hash sign of the path changes
    nothing of what [do_GET] does. *)
Theorem do_GET_ignores_query guess_type entries path c rest :
  startswith_str path (u "/upload/") = true ->
  35 ∉ path -> 63 ∉ path ->
  c = 35 \/ c = 63 ->
  do_GET guess_type (path ++ c :: rest) entries = do_GET guess_type path entries.
Proof.
  intros Hstart Hhash Hquery Hc. unfold do_GET.
  rewrite (startswith_str_app _ _ (c :: rest) Hstart), Hstart.
  assert (path <> u "/") as Hp by (by intros ->).
  assert (path ++ c :: rest <> u "/") as Hp'.
  { intros Heq%(f_equal length). rewrite length_app in Heq. simpl in Heq.
    destruct path; [done|]. simpl in Heq. lia. }
  rewrite !decide_False by done. cbn [negb].
  assert (urlparse_path (path ++ c :: rest) = urlparse_path path) as ->; [|done].
  unfold urlparse_path.
  set (keep := fun c0 => negb ((c0 =? 9) || (c0 =? 13) || (c0 =? 10))).
  rewrite List.filter_app. cbn [List.filter].
  assert (keep c = true) as -> by (by destruct Hc as [-> | ->]).
  assert (forall x, x ∉ path -> x ∉ List.filter keep path) as Hkeep.
  { intros x Hx Hin. apply Hx. apply list_elem_of_In, List.filter_In in Hin as [Hin _].
    by apply list_elem_of_In. }
  f_equal. rewrite (before_absent 35 (List.filter keep path)) by auto.
  rewrite (before_absent 63 (List.filter keep path)) by auto.
  destruct Hc as [-> | ->].
  - rewrite before_cut by auto. by apply before_absent; auto.
  - unfold before at 2. rewrite take_while_app_all by (apply forallb_absent; auto).
    cbn [take_while N.eqb Pos.eqb negb]. by rewrite before_cut by auto.
Qed.

Lemma do_GET_ignores_query_witness :
  do_GET (fun _ => None) (u "/upload/a.txt?download=1#top") [DirEntry (u "a.txt") true 5]
  = do_GET (fun _ => None) (u "/upload/a.txt") [DirEntry (u "a.txt") true 5].
Proof.
  apply (do_GET_ignores_query (fun _ => None) [DirEntry (u "a.txt") true 5]
           (u "/upload/a.txt") 63 (u "download=1#top"));
    [reflexivity|by_decide|by_decide|by right].
Defined.

(** X15.  The test for an empty text works for the last part only.  A
    part named text that is not the last one of the body is always saved,
    under a fresh name, with its payload and the CRLF before the
    separator: when the text is empty, as a file of those two bytes. *)
Theorem text_before_last_is_saved rand content_type boundary bb p ps q tname :
  get_header_opt (u "boundary") content_type = Ok boundary ->
  utf8_encode boundary = Some bb ->
  LF ∉ bb ->
  forallb (part_ok (separator_of bb) (terminator_of bb)) ((p :: ps) ++ [q]) = true ->
  named p (u "text") tname ->
  exists n, forall fuel, (n <= fuel)%nat ->
    exists st,
      do_POST fuel rand (u "/upload") content_type
        (wire (separator_of bb) (terminator_of bb) (p :: ps) q)
      = Some (send_redirect (u "/"), st)
      /\ head (saved st)
         = Some (FILEDIR ++ u "/" ++ u "text_" ++ rand_b32_str (rand 0%nat)
                   ++ u ".txt", payload p ++ CRLF).
Proof.
  intros Hb Hbb Hlf Hok Htext.
  destruct (do_POST_wire rand content_type boundary bb (p :: ps) q
              Hb Hbb Hlf Hok) as (es & Hes & _ & n & Hn).
  exists n. intros fuel Hfuel. destruct (Hn fuel Hfuel) as (st & Hpost & Hsaved & _).
  exists st. split; [done|]. rewrite Hsaved. clear Hn Hpost Hsaved.
  apply Forall2_cons_inv_l in Hes as (e & es' & He & _ & ->).
  unfold entry_for, named in *. rewrite Htext in He. injection He as Hn' Hf'.
  rewrite fmap_cons. cbn [app zip zip_with kept_uploads]. rewrite <-Hn'.
  rewrite decide_False, decide_True by done.
  rewrite decide_False by (by destruct (payload p)). done.
Qed.

Lemma text_before_last_is_saved_witness :
  exists n, forall fuel, (n <= fuel)%nat ->
    exists st,
      do_POST fuel (fun _ => b "hello") (u "/upload")
        (u "multipart/form-data; boundary=XYZ")
        (b "--XYZ\r\nContent-Disposition: form-data; name=\x22text\x22\r\n\r\n\r\n--XYZ\r\nContent-Disposition: form-data; name=\x22submit\x22\r\n\r\nUpload\r\n--XYZ--\r\n")
      = Some (send_redirect (u "/"), st)
      /\ head (saved st) = Some (u "tmp/text_nbswy3dp.txt", b "\r\n").
Proof.
  apply (text_before_last_is_saved (fun _ => b "hello")
           (u "multipart/form-data; boundary=XYZ") (u "XYZ") (b "XYZ")
           (WirePart [] (b "Content-Disposition: form-data; name=\x22text\x22") [] [])
           []
           (WirePart [] (b "Content-Disposition: form-data; name=\x22submit\x22") []
                     (b "Upload")) []);
    [reflexivity|reflexivity|by_decide|reflexivity|reflexivity].
Defined.

(** ** The home page *)

Lemma utf8_encode_app_inv s1 s2 l :
  utf8_encode (s1 ++ s2) = Some l ->
  exists l1 l2, utf8_encode s1 = Some l1 /\ utf8_encode s2 = Some l2 /\ l = l1 ++ l2.
Proof.
  rewrite utf8_encode_app. destruct (utf8_encode s1) as [l1|]; [|done].
  destruct (utf8_encode s2) as [l2|]; [|done]. intros [= <-]. eauto.
Qed.

Lemma utf8_encode_Forall s :
  is_Some (utf8_encode s) <-> Forall (fun c => is_Some (utf8_encode_char c)) s.
Proof.
  induction s as [|c s IH]; cbn [utf8_encode].
  - split; [constructor|eauto].
  - rewrite Forall_cons, <-IH. destruct (utf8_encode_char c) as [l|]; csimpl.
    + destruct (utf8_encode s) as [r|]; csimpl.
      * split; eauto.
      * split; [by intros []|by intros [_ []]].
    + split; [by intros []|by intros [[] _]].
Qed.

Lemma utf8_encode_char_ascii c : c < 128 -> is_Some (utf8_encode_char c).
Proof.
  intros Hc. unfold utf8_encode_char. rewrite (proj2 (N.ltb_lt c 128)) by done.
  csimpl. destruct (Byte.of_N c) eqn:Hb; csimpl; [eauto|].
  apply Byte.of_N_None_iff in Hb. lia.
Qed.

Lemma format_1f_ascii a d : Forall (fun c => c < 128) (format_1f a d).
Proof.
  unfold format_1f. rewrite !Forall_app. split_and!; try apply decimal_ascii.
  by repeat constructor.
Qed.

Lemma human_bytes_units_ascii units num d :
  Forall (Forall (fun c => c < 128)) units ->
  Forall (fun c => c < 128) (human_bytes_units units num d).
Proof.
  intros Hunits. revert d. induction Hunits as [|unit units Hunit _ IH]; intros d.
  - by repeat constructor.
  - cbn [human_bytes_units]. destruct (num <? 1024 * d); [|done].
    rewrite Forall_app. split; [apply format_1f_ascii|done].
Qed.

Lemma human_bytes_ascii num size :
  human_bytes num = Done size -> Forall (fun c => c < 128) size.
Proof.
  unfold human_bytes. destruct (num <? 1024).
  - intros [= <-]. rewrite Forall_app. split; [apply format_1f_ascii|].
    by repeat constructor.
  - destruct (FLOAT_OVERFLOW <=? num); [done|]. intros Heq.
    assert (size = human_bytes_units [u "K"; u "M"; u "G"] num 1024) as ->
      by congruence.
    apply human_bytes_units_ascii. by repeat constructor.
Qed.

Lemma human_bytes_Done num :
  num < FLOAT_OVERFLOW -> exists size, human_bytes num = Done size.
Proof.
  intros Hnum. unfold human_bytes. destruct (num <? 1024); [eauto|].
  rewrite (proj2 (N.leb_gt FLOAT_OVERFLOW num)) by done. eauto.
Qed.

Lemma page_row_encodes name size :
  Forall (fun c => c < 128) size ->
  is_Some (utf8_encode (page_row name size)) <-> is_Some (utf8_encode name).
Proof.
  intros Hsize. unfold page_row. rewrite !utf8_encode_Forall, !Forall_app.
  assert (forall s, Forall (fun c => c < 128) s ->
            Forall (fun c => is_Some (utf8_encode_char c)) s) as Hascii.
  { intros s Hs. eapply Forall_impl; [exact Hs|]. apply utf8_encode_char_ascii. }
  split; [by intros (_ & ? & _)|]. intros Hname.
  split_and!; try done; try (apply Hascii; done); apply Hascii; by_decide.
Qed.

(** The rows of the page: one for every upload, in order. *)
Lemma page_rows_Done file_data :
  Forall (fun fd => fd_filesize fd < FLOAT_OVERFLOW) file_data ->
  exists rows,
    page_rows file_data = Done rows
    /\ (is_Some (utf8_encode rows)
        <-> Forall (fun fd => is_Some (utf8_encode (fd_filename fd))) file_data)
    /\ forall fd, fd ∈ file_data ->
         exists size pre post,
           human_bytes (fd_filesize fd) = Done size
           /\ rows = pre ++ page_row (fd_filename fd) size ++ post.
Proof.
  induction 1 as [|fd file_data Hfd _ (rows & Hrows & Henc & Hin)].
  - exists []. split_and!; [done|split; [constructor|by eexists]|].
    by intros ? ?%elem_of_nil.
  - destruct (human_bytes_Done _ Hfd) as [size Hsize].
    exists (page_row (fd_filename fd) size ++ rows). cbn [page_rows].
    rewrite Hsize, Hrows. split_and!; [done| |].
    + rewrite Forall_cons, <-Henc, utf8_encode_Forall, Forall_app.
      rewrite <-!utf8_encode_Forall, page_row_encodes; [done|].
      by eapply human_bytes_ascii.
    + intros fd' [->|Hfd']%elem_of_cons.
      * exists size, [], rows. by rewrite app_nil_l.
      * destruct (Hin fd' Hfd') as (size' & pre & post & Hs & ->).
        exists size', (page_row (fd_filename fd) size ++ pre), post.
        by rewrite <-!app_assoc.
Qed.

Lemma page_frame_encodes :
  is_Some (utf8_encode PAGE_HEAD) /\ is_Some (utf8_encode PAGE_TAIL).
Proof. split; vm_compute; eauto. Qed.

(** What [render_homepage_html] gives for uploads of sizes that a float
    holds. *)
Lemma render_homepage_html_result file_data :
  Forall (fun fd => fd_filesize fd < FLOAT_OVERFLOW) file_data ->
  (Forall (fun fd => is_Some (utf8_encode (fd_filename fd))) file_data ->
   exists page,
     render_homepage_html file_data = Done page
     /\ forall fd, fd ∈ file_data ->
          exists size row pre post,
            human_bytes (fd_filesize fd) = Done size
            /\ utf8_encode (page_row (fd_filename fd) size) = Some row
            /\ page = pre ++ row ++ post)
  /\ (~ Forall (fun fd => is_Some (utf8_encode (fd_filename fd))) file_data ->
      render_homepage_html file_data = Fail (Exn UnicodeEncodeError)).
Proof.
  intros Hsizes. destruct (page_rows_Done _ Hsizes) as (rows & Hrows & Henc & Hin).
  destruct page_frame_encodes as [Hhead Htail].
  unfold render_homepage_html. rewrite Hrows. split.
  - intros Hnames%Henc.
    destruct (utf8_encode (PAGE_HEAD ++ rows ++ PAGE_TAIL)) as [page|] eqn:Hpage.
    + exists page. split; [done|]. intros fd Hfd.
      destruct (Hin fd Hfd) as (size & pre & post & Hsize & ->).
      apply utf8_encode_app_inv in Hpage as (lh & l1 & _ & Hpage & ->).
      apply utf8_encode_app_inv in Hpage as (l2 & lt & Hpage & _ & ->).
      apply utf8_encode_app_inv in Hpage as (lpre & l3 & _ & Hpage & ->).
      apply utf8_encode_app_inv in Hpage as (row & lpost & Hrow & _ & ->).
      exists size, row, (lh ++ lpre), (lpost ++ lt). split_and!; [done|done|].
      by rewrite <-!app_assoc.
    + assert (is_Some (utf8_encode (PAGE_HEAD ++ rows ++ PAGE_TAIL))) as [? Hs].
      { rewrite utf8_encode_Forall, !Forall_app, <-!utf8_encode_Forall.
        split_and!; [exact Hhead|exact Hnames|exact Htail]. }
      congruence.
  - intros Hnames.
    destruct (utf8_encode (PAGE_HEAD ++ rows ++ PAGE_TAIL)) as [page|] eqn:Hpage; [|done].
    exfalso. apply Hnames, Henc.
    apply utf8_encode_app_inv in Hpage as (lh & l1 & _ & Hpage & ->).
    apply utf8_encode_app_inv in Hpage as (l2 & lt & Hpage & _ & ->). eauto.
Qed.

Lemma listing_sizes path entries :
  Forall (fun entry => entry_size entry < FLOAT_OVERFLOW) entries ->
  Forall (fun fd => fd_filesize fd < FLOAT_OVERFLOW)
         (get_uploaded_file_data path entries).
Proof.
  intros Hsizes. apply Forall_forall. intros fd (entry & Hin & _ & ->)%listing_elem_of.
  cbn [fd_filesize]. by apply (proj1 (Forall_forall _ _) Hsizes).
Qed.

(** X16.  The home page has a row for every upload of the directory,
    with its name as it is, in the link and in the text, and its size as
    [human_bytes] writes it: when every name of an upload can be encoded
    in UTF-8, [do_GET] answers the path [/] with the page, as text/html
    and with the number of its bytes as the length, and the bytes of the
    row of every upload are in the page.  Nothing of a name is escaped. *)
Theorem homepage_lists_uploads guess_type entries :
  Forall (fun entry => entry_size entry < FLOAT_OVERFLOW) entries ->
  Forall (fun entry => listed entry = true ->
            is_Some (utf8_encode (entry_name entry))) entries ->
  exists page,
    do_GET guess_type (u "/") entries
    = Response 200
        [(u "Content-Type", u "text/html");
         (u "Content-Length", decimal (N.of_nat (length page)))] page
    /\ forall entry, entry ∈ entries -> listed entry = true ->
         exists size row pre post,
           human_bytes (entry_size entry) = Done size
           /\ utf8_encode (page_row (entry_name entry) size) = Some row
           /\ page = pre ++ row ++ post.
Proof.
  intros Hsizes Hnames.
  destruct (render_homepage_html_result (get_uploaded_file_data FILEDIR entries)
              (listing_sizes _ _ Hsizes)) as [Hpage _].
  destruct Hpage as (page & Hpage & Hrows).
  { apply Forall_forall. intros fd (entry & Hin & Hl & ->)%listing_elem_of.
    cbn [fd_filename]. by apply (proj1 (Forall_forall _ _) Hnames). }
  exists page. split.
  - unfold do_GET. rewrite decide_True by done. unfold send_homepage.
    by rewrite Hpage.
  - intros entry Hin Hl.
    apply (Hrows (FileData (entry_path FILEDIR (entry_name entry)) (entry_name entry)
                           (entry_size entry))).
    apply listing_elem_of. eauto.
Qed.

Lemma homepage_lists_uploads_witness :
  exists page,
    do_GET (fun _ => None) (u "/") [DirEntry (u "<b>.txt") true 2048]
    = Response 200
        [(u "Content-Type", u "text/html");
         (u "Content-Length", decimal (N.of_nat (length page)))] page
    /\ forall entry, entry ∈ [DirEntry (u "<b>.txt") true 2048] -> listed entry = true ->
         exists size row pre post,
           human_bytes (entry_size entry) = Done size
           /\ utf8_encode (page_row (entry_name entry) size) = Some row
           /\ page = pre ++ row ++ post.
Proof.
  apply (homepage_lists_uploads (fun _ => None) [DirEntry (u "<b>.txt") true 2048]).
  - repeat constructor.
  - repeat constructor. intros _. vm_compute. eauto.
Defined.

(** X17.  One name that cannot be encoded in UTF-8 among the uploads (a
    name with a lone surrogate, which is how the names that are not
    UTF-8 on the disk are listed) takes the home page away: [do_GET] is
    left by a [UnicodeEncodeError] whatever else the directory holds. *)
Theorem homepage_bad_name guess_type entries entry :
  Forall (fun entry => entry_size entry < FLOAT_OVERFLOW) entries ->
  entry ∈ entries -> listed entry = true ->
  utf8_encode (entry_name entry) = None ->
  do_GET guess_type (u "/") entries = Crashed (Exn UnicodeEncodeError).
Proof.
  intros Hsizes Hin Hl Hname.
  destruct (render_homepage_html_result (get_uploaded_file_data FILEDIR entries)
              (listing_sizes _ _ Hsizes)) as [_ Hfail].
  unfold do_GET. rewrite decide_True by done. unfold send_homepage.
  rewrite Hfail; [done|]. intros Hall.
  assert (is_Some (utf8_encode (entry_name entry))) as [? ?]; [|congruence].
  apply (proj1 (Forall_forall _ _) Hall
           (FileData (entry_path FILEDIR (entry_name entry)) (entry_name entry)
                     (entry_size entry))).
  apply listing_elem_of. eauto.
Qed.

Lemma homepage_bad_name_witness :
  do_GET (fun _ => None) (u "/")
    [DirEntry (u "a.txt") true 5; DirEntry [98; 0xDCFF] true 7]
  = Crashed (Exn UnicodeEncodeError).
Proof.
  apply (homepage_bad_name (fun _ => None)
           [DirEntry (u "a.txt") true 5; DirEntry [98; 0xDCFF] true 7]
           (DirEntry [98; 0xDCFF] true 7)).
  - repeat constructor.
  - apply elem_of_cons; right. apply elem_of_cons; by left.
  - reflexivity.
  - reflexivity.
Defined.

(** ** Quoted names *)

Lemma mapM_of_N ns l : mapM Byte.of_N ns = Some l -> Byte.to_N <$> l = ns.
Proof.
  intros H%mapM_Some. induction H as [|n x ns l Hx _ IH]; [done|].
  csimpl. by rewrite IH, (Byte.to_of_N n Hx).
Qed.

Lemma utf8_decode_replace_cons b0 t0 :
  utf8_decode_replace (b0 :: t0)
  = let n0 := Byte.to_N b0 in
    if n0 <? 0x80 then n0 :: utf8_decode_replace t0
    else if n0 <? 0xC2 then REPLACEMENT :: utf8_decode_replace t0
    else if n0 <? 0xE0 then
      match t0 with
      | b1 :: t1 =>
        match continuation b1 with
        | Some c1 => ((n0 - 0xC0) * 64 + c1) :: utf8_decode_replace t1
        | None => REPLACEMENT :: utf8_decode_replace t0
        end
      | [] => REPLACEMENT :: utf8_decode_replace t0
      end
    else if n0 <? 0xF0 then
      let lo := if n0 =? 0xE0 then 0xA0 else 0x80 in
      let hi := if n0 =? 0xED then 0x9F else 0xBF in
      match t0 with
      | b1 :: t1 =>
        match in_range lo hi b1 with
        | Some c1 =>
          match t1 with
          | b2 :: t2 =>
            match continuation b2 with
            | Some c2 =>
              ((n0 - 0xE0) * 4096 + c1 * 64 + c2) :: utf8_decode_replace t2
            | None => REPLACEMENT :: utf8_decode_replace t1
            end
          | [] => REPLACEMENT :: utf8_decode_replace t1
          end
        | None => REPLACEMENT :: utf8_decode_replace t0
        end
      | [] => REPLACEMENT :: utf8_decode_replace t0
      end
    else if n0 <? 0xF5 then
      let lo := if n0 =? 0xF0 then 0x90 else 0x80 in
      let hi := if n0 =? 0xF4 then 0x8F else 0xBF in
      match t0 with
      | b1 :: t1 =>
        match in_range lo hi b1 with
        | Some c1 =>
          match t1 with
          | b2 :: t2 =>
            match continuation b2 with
            | Some c2 =>
              match t2 with
              | b3 :: t3 =>
                match continuation b3 with
                | Some c3 =>
                  ((n0 - 0xF0) * 262144 + c1 * 4096 + c2 * 64 + c3)
                    :: utf8_decode_replace t3
                | None => REPLACEMENT :: utf8_decode_replace t2
                end
              | [] => REPLACEMENT :: utf8_decode_replace t2
              end
            | None => REPLACEMENT :: utf8_decode_replace t1
            end
          | [] => REPLACEMENT :: utf8_decode_replace t1
          end
        | None => REPLACEMENT :: utf8_decode_replace t0
        end
      | [] => REPLACEMENT :: utf8_decode_replace t0
      end
    else REPLACEMENT :: utf8_decode_replace t0.
Proof. reflexivity. Qed.

Ltac settle_tests :=
  repeat match goal with
  | |- context [N.ltb ?a ?b] =>
    first [rewrite (proj2 (N.ltb_lt a b)) by lia
          |rewrite (proj2 (N.ltb_ge a b)) by lia]
  | |- context [N.leb ?a ?b] =>
    first [rewrite (proj2 (N.leb_le a b)) by lia
          |rewrite (proj2 (N.leb_gt a b)) by lia]
  | |- context [N.eqb ?a ?b] =>
    first [rewrite (proj2 (N.eqb_eq a b)) by lia
          |rewrite (proj2 (N.eqb_neq a b)) by lia]
  end.

(** Decoding with replacement reads a character that has been encoded. *)
Lemma decode_encode_char c l r :
  utf8_encode_char c = Some l ->
  utf8_decode_replace (l ++ r) = c :: utf8_decode_replace r.
Proof.
  unfold utf8_encode_char.
  replace (c / 4096) with (c / 64 / 64) by (by rewrite N.Div0.div_div).
  replace (c / 262144) with (c / 64 / 64 / 64) by (by rewrite !N.Div0.div_div).
  pose proof (N.div_mod' c 64) as E0.
  pose proof (N.mod_lt c 64 ltac:(done)) as B0.
  set (q1 := c / 64) in *. set (r0 := c mod 64) in *.
  pose proof (N.div_mod' q1 64) as E1.
  pose proof (N.mod_lt q1 64 ltac:(done)) as B1.
  set (q2 := q1 / 64) in *. set (r1 := q1 mod 64) in *.
  pose proof (N.div_mod' q2 64) as E2.
  pose proof (N.mod_lt q2 64 ltac:(done)) as B2.
  set (q3 := q2 / 64) in *. set (r2 := q2 mod 64) in *.
  clearbody q1 r0 q2 r1 q3 r2.
  destruct (N.ltb_spec c 0x80) as [H1|H1].
  { intros Hl%mapM_of_N. destruct l as [|x [|]]; try done.
    injection Hl as Hx. cbn [app].
    rewrite utf8_decode_replace_cons. cbv beta iota zeta. rewrite Hx.
    by settle_tests. }
  destruct (N.ltb_spec c 0x800) as [H2|H2].
  { intros Hl%mapM_of_N. destruct l as [|x [|y [|]]]; try done.
    injection Hl as Hx Hy. cbn [app].
    rewrite utf8_decode_replace_cons. unfold continuation. cbv beta iota zeta.
    rewrite Hx, Hy. settle_tests. cbn [andb]. f_equal. lia. }
  destruct (N.ltb_spec c 0x10000) as [H3|H3].
  { destruct (N.leb_spec 0xD800 c) as [H4|H4];
      [destruct (N.leb_spec c 0xDFFF) as [H5|H5]; [done|]|]; cbn [andb];
      intros Hl%mapM_of_N; (destruct l as [|x [|y [|z [|]]]]; try done);
      injection Hl as Hx Hy Hz; cbn [app];
      rewrite utf8_decode_replace_cons; unfold continuation, in_range;
      cbv beta iota zeta; rewrite Hx, Hy, Hz.
    all: destruct (N.eqb_spec (224 + q2) 0xE0); destruct (N.eqb_spec (224 + q2) 0xED);
      settle_tests; cbn [andb]; f_equal; lia. }
  destruct (N.ltb_spec c 0x110000) as [H4|H4]; [|done].
  intros Hl%mapM_of_N. destruct l as [|x [|y [|z [|w [|]]]]]; try done.
  injection Hl as Hx Hy Hz Hw. cbn [app].
  rewrite utf8_decode_replace_cons. unfold continuation, in_range.
  cbv beta iota zeta. rewrite Hx, Hy, Hz, Hw.
  destruct (N.eqb_spec (240 + q3) 0xF0); destruct (N.eqb_spec (240 + q3) 0xF4);
    settle_tests; cbn [andb]; f_equal; lia.
Qed.

Lemma decode_encode s l : utf8_encode s = Some l -> utf8_decode_replace l = s.
Proof.
  revert l. induction s as [|c s IH]; intros l; cbn [utf8_encode].
  - by intros [= <-].
  - destruct (utf8_encode_char c) as [lc|] eqn:Hc; [|done]. csimpl.
    destruct (utf8_encode s) as [ls|]; [|done]. csimpl. intros [= <-].
    rewrite (decode_encode_char _ _ _ Hc). f_equal. by apply IH.
Qed.

Lemma unquote_runs_ascii s run :
  Forall (fun c => c < 128) s ->
  unquote_runs s run
  = utf8_decode_replace
      (unquote_to_bytes
         (reverse run ++ ((fun c => byte_of_ascii (ascii_of_N c)) <$> s))).
Proof.
  intros Hs. revert run. induction Hs as [|c s Hc _ IH]; intros run.
  - by rewrite app_nil_r.
  - cbn [unquote_runs]. rewrite (proj2 (N.ltb_lt c 128)) by done.
    rewrite IH, reverse_cons, <-app_assoc. done.
Qed.

Lemma unquote_to_bytes_plain l r :
  PERCENT ∉ l -> unquote_to_bytes (l ++ r) = l ++ unquote_to_bytes r.
Proof.
  induction l as [|c l IH]; [done|]. intros [Hc Hl]%not_elem_of_cons.
  cbn [app unquote_to_bytes]. rewrite decide_False by done. by rewrite IH.
Qed.

Lemma unquote_byte (c : byte) (r : bytes) :
  unquote_to_bytes
    (((fun c => byte_of_ascii (ascii_of_N c))
        <$> [37; hex_upper (Byte.to_N c / 16); hex_upper (Byte.to_N c mod 16)]) ++ r)
  = c :: unquote_to_bytes r.
Proof. by destruct c. Qed.

Lemma unquote_percent_encode l :
  unquote_to_bytes ((fun c => byte_of_ascii (ascii_of_N c)) <$> percent_encode l) = l.
Proof.
  induction l as [|c l IH]; [done|]. unfold percent_encode in *.
  rewrite bind_cons, fmap_app, unquote_byte. by rewrite IH.
Qed.

Lemma urlparse_path_kept (path : str) :
  (forall c, c ∈ [35; 63; 59; 9; 10; 13] -> c ∉ path) -> urlparse_path path = path.
Proof.
  intros Hpath. unfold urlparse_path. rewrite filter_all.
  - rewrite (before_absent 35 path) by (apply Hpath; set_solver).
    rewrite (before_absent 63 path) by (apply Hpath; set_solver).
    apply splitparams_plain, Hpath. set_solver.
  - apply forallb_forall. intros c Hc%list_elem_of_In. apply negb_true_iff.
    destruct (N.eqb_spec c 9) as [->|]; [exfalso; by apply (Hpath 9); [set_solver|]|].
    destruct (N.eqb_spec c 13) as [->|]; [exfalso; by apply (Hpath 13); [set_solver|]|].
    destruct (N.eqb_spec c 10) as [->|]; [exfalso; by apply (Hpath 10); [set_solver|]|].
    done.
Qed.

Lemma hex_upper_range d :
  d < 16 -> 48 <= hex_upper d <= 57 \/ 65 <= hex_upper d <= 70.
Proof. intros Hd. unfold hex_upper. destruct (N.ltb_spec d 10); lia. Qed.

Lemma percent_encode_chars l c :
  c ∈ percent_encode l -> c = 37 \/ 48 <= c <= 57 \/ 65 <= c <= 70.
Proof.
  unfold percent_encode. intros (x & Hc & _)%list_elem_of_bind.
  pose proof (Byte.to_N_bounded x) as Hx.
  assert (Byte.to_N x / 16 < 16) by (apply N.Div0.div_lt_upper_bound; lia).
  assert (Byte.to_N x mod 16 < 16) by (by apply N.mod_lt).
  apply elem_of_cons in Hc as [->|Hc]; [by left|]. right.
  apply elem_of_cons in Hc as [->|Hc]; [by apply hex_upper_range|].
  apply elem_of_cons in Hc as [->|Hc%elem_of_nil]; [by apply hex_upper_range|done].
Qed.

(** X18.  A client can ask for any upload by quoting its name: for the
    path [/upload/] followed by the bytes of the UTF-8 form of the name,
    each as a percent sign and two hexadecimal digits, [do_GET] sends the
    listed file of that name, whatever characters the name has. *)
Theorem do_GET_quoted_name guess_type entries entry bs :
  NoDup (entry_name <$> entries) ->
  entry ∈ entries ->
  listed entry = true ->
  utf8_encode (entry_name entry) = Some bs ->
  47 ∉ entry_name entry ->
  do_GET guess_type (u "/upload/" ++ percent_encode bs) entries
  = send_filedata guess_type
      (FileData (u "tmp/" ++ entry_name entry) (entry_name entry)
                (entry_size entry)).
Proof.
  intros Hnodup Hin Hl Hbs Hslash. unfold do_GET.
  rewrite decide_False by done.
  assert (startswith_str (u "/upload/" ++ percent_encode bs) (u "/upload/") = true)
    as -> by (unfold startswith_str; by rewrite strip_prefix_app_same).
  cbn [negb]. rewrite urlparse_path_kept.
  2:{ intros c Hc. apply not_elem_of_app. split.
      - repeat (apply elem_of_cons in Hc as [->|Hc]);
          [by_decide..|by apply elem_of_nil in Hc].
      - intros Hq%percent_encode_chars.
        repeat (apply elem_of_cons in Hc as [->|Hc]);
          [lia..|by apply elem_of_nil in Hc]. }
  assert (unquote (u "/upload/" ++ percent_encode bs) = u "/upload/" ++ entry_name entry)
    as ->.
  { assert (utf8_encode (u "/upload/" ++ entry_name entry) = Some (b "/upload/" ++ bs))
      as Hwhole%decode_encode by (by rewrite utf8_encode_app, Hbs).
    unfold unquote. destruct bs as [|c bs].
    - rewrite decide_False by by_decide. by rewrite <-Hwhole.
    - rewrite decide_True.
      2:{ apply elem_of_app. right. unfold percent_encode. rewrite bind_cons.
          by left. }
      rewrite unquote_runs_ascii.
      + rewrite fmap_app, app_nil_l, unquote_to_bytes_plain by by_decide.
        by rewrite unquote_percent_encode.
      + apply Forall_app. split; [by_decide|].
        apply Forall_forall. intros x Hx%percent_encode_chars. lia. }
  rewrite split_two by (done || by apply find_None_head).
  by rewrite (find_upload_listed FILEDIR) by done.
Qed.

Lemma do_GET_quoted_name_witness :
  do_GET (fun _ => None) (u "/upload/%61%3F%C3%A9")
    [DirEntry (u "a") true 3; DirEntry [97; 63; 233] true 5]
  = SendFile (u "application/octet-stream") 5 (u "tmp/" ++ [97; 63; 233]).
Proof.
  apply (do_GET_quoted_name (fun _ => None)
           [DirEntry (u "a") true 3; DirEntry [97; 63; 233] true 5]
           (DirEntry [97; 63; 233] true 5) (b "a?\xC3\xA9"));
    [by_decide| |reflexivity|reflexivity|by_decide].
  apply elem_of_cons; right. apply elem_of_cons; by left.
Defined.

(** ** Around the parts *)

Lemma skip_preamble separator terminator lines rest fs parts :
  Forall is_line lines -> separator ∉ lines ->
  rtc (next separator terminator)
    (State SeekingFirstBoundary (concat lines ++ rest) fs parts)
    (State SeekingFirstBoundary rest fs parts).
Proof.
  induction 1 as [|l lines Hl _ IH]; [done|].
  intros [Hne Hsep]%not_elem_of_cons. eapply rtc_l; [|by apply IH].
  unfold_step. cbn [concat]. rewrite <-app_assoc, readline_is_line by done.
  by rewrite decide_False.
Qed.

Lemma decode_framed separator terminator lines ps q raw post :
  is_line separator -> is_line terminator -> separator <> terminator ->
  Forall is_line lines -> separator ∉ lines ->
  forallb (part_ok separator terminator) ps = true ->
  headers_ok q = true -> complete raw = true ->
  delimiter_free separator terminator raw = true ->
  exists es, Forall2 entry_for (ps ++ [q]) es /\
    buf <$> es = seq 0 (length (ps ++ [q])) /\
    terminates separator terminator
      (State SeekingFirstBoundary
             (concat lines ++ wire_raw separator terminator ps q raw ++ post) [] [])
      (if decide (2 <= length raw)%nat
       then Ok (es, ((fun p => file_of (payload p ++ CRLF)) <$> ps)
                      ++ [file_of (take (length raw - 2) raw)])
       else Raise OSError).
Proof.
  intros Hsl Htl Hne Hlines Hsep Hps Hq Hc Hfree.
  destruct (sealed_parts separator terminator Hsl Hne ps
              (wire_headers q ++ raw ++ terminator ++ post) [] [] Hps)
    as (es & Hes & Hbufs & Hsteps).
  destruct (last_part separator terminator Htl q raw post
              ((fun p => file_of (payload p ++ CRLF)) <$> ps)
              es Hq Hc Hfree) as (e & He & Hbuf & Hterm).
  rewrite !app_nil_l in Hsteps. simpl in Hbufs.
  exists (es ++ [e]). split_and!.
  - apply Forall2_app; [done|]. by repeat constructor.
  - rewrite fmap_app, Hbufs, length_app. csimpl. rewrite Hbuf.
    by rewrite length_fmap, Nat.add_1_r, seq_S.
  - eapply terminates_rtc; [by apply skip_preamble|].
    eapply terminates_next.
    { unfold wire_raw. rewrite <-app_assoc. apply first_boundary; done. }
    rewrite <-!app_assoc.
    eapply terminates_rtc; [exact Hsteps|exact Hterm].
Qed.

Lemma entries_unique ps es es' :
  Forall2 entry_for ps es -> Forall2 entry_for ps es' ->
  buf <$> es = buf <$> es' -> es = es'.
Proof.
  intros Hes. revert es'. induction Hes as [|p e ps es He _ IH]; intros es' Hes' Hbufs.
  - by apply Forall2_nil_inv_l in Hes' as ->.
  - apply Forall2_cons_inv_l in Hes' as (e' & es'' & He' & Hes' & ->).
    rewrite !fmap_cons in Hbufs. injection Hbufs as Hb Hbufs.
    unfold entry_for in *. rewrite He in He'. injection He' as Hn Hf.
    f_equal; [|by apply IH]. destruct e, e'; simpl in *; by subst.
Qed.

(** X19.  What comes before the first separator line and after the
    terminator line is not looked at: with whole lines before the body,
    none of them the separator, and any bytes after it, the decoder ends
    as it does on the body alone, with the same entries and the same
    contents, or with the same exception. *)
Theorem preamble_and_epilogue_ignored content_type boundary bb lines ps q raw post :
  get_header_opt (u "boundary") content_type = Ok boundary ->
  utf8_encode boundary = Some bb ->
  LF ∉ bb ->
  Forall is_line lines -> separator_of bb ∉ lines ->
  forallb (part_ok (separator_of bb) (terminator_of bb)) ps = true ->
  headers_ok q = true -> complete raw = true ->
  delimiter_free (separator_of bb) (terminator_of bb) raw = true ->
  exists o,
    returns content_type (wire_raw (separator_of bb) (terminator_of bb) ps q raw) o
    /\ returns content_type
         (concat lines ++ wire_raw (separator_of bb) (terminator_of bb) ps q raw ++ post)
         o.
Proof.
  intros Hb Hbb Hlf Hlines Hsep Hps Hq Hc Hfree.
  destruct (decode_wire_raw content_type boundary bb ps q raw
              Hb Hbb Hlf Hps Hq Hc Hfree) as (es & Hes & Hbufs & Hret).
  destruct (decode_framed (separator_of bb) (terminator_of bb) lines ps q raw post
              (separator_of_line _ Hlf) (terminator_of_line _ Hlf)
              (separator_terminator_of bb) Hlines Hsep Hps Hq Hc Hfree)
    as (es' & Hes' & Hbufs' & Hterm).
  assert (es' = es) as -> by (eapply entries_unique; [done..|congruence]).
  eexists. split; [exact Hret|].
  eapply returns_run; [by eapply delimiters_boundary|done].
Qed.

Lemma preamble_and_epilogue_ignored_witness :
  exists o,
    returns (u "multipart/form-data; boundary=XYZ")
      (b "--XYZ\r\nContent-Disposition: form-data; name=\x22text\x22\r\n\r\nhello\r\n--XYZ--\r\n")
      o
    /\ returns (u "multipart/form-data; boundary=XYZ")
         (b "This is the preamble.\r\n--XYZ \r\n--XYZ\r\nContent-Disposition: form-data; name=\x22text\x22\r\n\r\nhello\r\n--XYZ--\r\nepilogue\r\n--XYZ\r\n")
         o.
Proof.
  apply (preamble_and_epilogue_ignored (u "multipart/form-data; boundary=XYZ")
           (u "XYZ") (b "XYZ")
           [b "This is the preamble.\r\n"; b "--XYZ \r\n"] []
           (WirePart [] (b "Content-Disposition: form-data; name=\x22text\x22") [] [])
           (b "hello\r\n") (b "epilogue\r\n--XYZ\r\n"));
    [reflexivity|reflexivity|by_decide| |by_decide|reflexivity..].
  repeat constructor.
  - exists (b "This is the preamble.\r"). split; [reflexivity|by_decide].
  - exists (b "--XYZ \r"). split; [reflexivity|by_decide].
Defined.

(** ** Names that are not served, names that are *)

Lemma find_upload_None basename l :
  Forall (fun fd => fd_filename fd <> basename) l -> find_upload basename l = None.
Proof.
  induction 1 as [|fd l Hfd _ IH]; [done|]. cbn [find_upload].
  by rewrite decide_False.
Qed.

(** X20.  A name that no listed entry has is answered with 404: so is
    the name of a hidden file and of a directory, which are in the
    directory and are not listed. *)
Theorem do_GET_unlisted guess_type entries name :
  forallb url_plain name = true ->
  47 ∉ name ->
  Forall (fun entry => listed entry = true -> entry_name entry <> name) entries ->
  do_GET guess_type (u "/upload/" ++ name) entries = SendError 404.
Proof.
  intros Hplain Hslash Hnone. unfold do_GET. rewrite decide_False by done.
  assert (startswith_str (u "/upload/" ++ name) (u "/upload/") = true)
    as -> by (unfold startswith_str; by rewrite strip_prefix_app_same).
  cbn [negb]. rewrite request_path_plain by (by rewrite forallb_app, Hplain).
  rewrite split_two by (done || by apply find_None_head).
  rewrite find_upload_None; [done|].
  apply Forall_forall. intros fd (entry & Hin & Hl & ->)%listing_elem_of.
  cbn [fd_filename]. by apply (proj1 (Forall_forall _ _) Hnone).
Qed.

Lemma do_GET_unlisted_witness :
  do_GET (fun _ => None) (u "/upload/.hidden")
    [DirEntry (u ".hidden") true 3; DirEntry (u "a.txt") true 5]
  = SendError 404.
Proof.
  apply (do_GET_unlisted (fun _ => None)
           [DirEntry (u ".hidden") true 3; DirEntry (u "a.txt") true 5] (u ".hidden"));
    [reflexivity|by_decide|].
  repeat constructor; discriminate.
Defined.

Lemma b32_small_plain c : b32_small c -> url_plain c = true /\ c <> 47.
Proof.
  unfold b32_small, url_plain. intros Hc. split; [|lia].
  apply negb_true_iff, bool_decide_eq_false. intros Hin.
  repeat (apply elem_of_cons in Hin as [->|Hin]); [lia..|by apply elem_of_nil in Hin].
Qed.

Lemma b32_small_all_plain l :
  Forall b32_small l -> forallb url_plain l = true /\ 47 ∉ l.
Proof.
  induction 1 as [|c l Hc _ [IH IH']]; [split; [done|apply not_elem_of_nil]|].
  apply b32_small_plain in Hc as [Hc Hc'].
  cbn [forallb]. rewrite Hc, IH. split; [done|].
  apply not_elem_of_cons. by split.
Qed.

(** X21.  The link of a text upload works: the name that [do_POST] gives
    to a text, [text_], the string of a token of whole groups and [.txt],
    has only characters that a request path keeps, and [do_GET] sends the
    file of that name for the path [/upload/] followed by the name. *)
Theorem text_upload_is_served guess_type entries entry k token :
  length token = (5 * k)%nat ->
  NoDup (entry_name <$> entries) ->
  entry ∈ entries ->
  entry_is_file entry = true ->
  entry_name entry = u "text_" ++ rand_b32_str token ++ u ".txt" ->
  do_GET guess_type (u "/upload/" ++ entry_name entry) entries
  = send_filedata guess_type
      (FileData (u "tmp/" ++ entry_name entry) (entry_name entry)
                (entry_size entry)).
Proof.
  intros Hlen Hnodup Hin Hfile Hname.
  destruct (rand_b32_str_groups k token Hlen) as [_ Hsmall].
  assert (forallb url_plain (entry_name entry) = true /\ 47 ∉ entry_name entry)
    as [Hplain Hslash].
  { rewrite Hname. rewrite !forallb_app, !not_elem_of_app.
    destruct (b32_small_all_plain _ Hsmall) as [-> ?].
    split; [done|]. split_and!; [by_decide|done|by_decide]. }
  assert (listed entry = true) as Hl.
  { unfold listed. by rewrite Hfile, Hname. }
  unfold do_GET. rewrite decide_False by done.
  assert (startswith_str (u "/upload/" ++ entry_name entry) (u "/upload/") = true)
    as -> by (unfold startswith_str; by rewrite strip_prefix_app_same).
  cbn [negb]. rewrite request_path_plain by (by rewrite forallb_app, Hplain).
  rewrite split_two by (done || by apply find_None_head).
  by rewrite (find_upload_listed FILEDIR) by done.
Qed.

Lemma text_upload_is_served_witness :
  do_GET (fun _ => Some (u "text/plain")) (u "/upload/text_nbswy3dp.txt")
    [DirEntry (u "text_nbswy3dp.txt") true 9]
  = SendFile (u "text/plain") 9 (u "tmp/text_nbswy3dp.txt").
Proof.
  apply (text_upload_is_served (fun _ => Some (u "text/plain"))
           [DirEntry (u "text_nbswy3dp.txt") true 9]
           (DirEntry (u "text_nbswy3dp.txt") true 9) 1 (b "hello"));
    [reflexivity|by_decide| |reflexivity|reflexivity].
  apply elem_of_cons; by left.
Defined.
